(** * Log pipeline: log_generator.py, mapper.py and reducer.py

    A shallow embedding of the two MapReduce stages of the repository, and
    of the generator that feeds them:

    - [Mapper.parse_line] and [Mapper.main] follow [mapper.py];
    - [Reducer.main] follows [reducer.py];
    - [Generator._make_user_pool], [Generator.generate_log_line] and the
      loop of [Generator.main] follow [log_generator.py], with
      [JsonEncode.dumps] for [json.dumps].

    Python values are modelled as follows.

    - A [str] is the list of its code points ([N]); the methods used by the
      two scripts ([strip], [rstrip], [split], slicing, comparison) are
      written out in [PyStr].
    - A Python [int] is a [Z].  The interpreter's optional limit on the
      length of integer/string conversions ([sys.set_int_max_str_digits])
      is taken to be switched off.
    - [sys.stdin] is the list of the lines the [for] loop iterates over;
      each line still carries its terminator.  [sys.stdout] is the list of
      lines printed; the diagnostics printed on [sys.stderr] are kept as
      structured values.
    - The [defaultdict(int)] of the reducer is an association list in
      insertion order, the order in which [counts.items()] yields it.
    - [json.loads] is written out after CPython's scanner ([Json.loads]).

    Left out: binary floating point (the truth and the [str] of a [float]),
    the [repr] of strings (the [str] of a list or of a dict, the quoted
    preview in the reducer's diagnostics), CPython's recursion limit, and
    failures of the streams themselves.  Of the operations that remain,
    only [json.loads] and [int] raise, and the scripts catch both where they
    are called: the [except Exception] clauses of the two loops are not
    reached.  Of the generator, the command line, the pacing of the loop
    and the signals are left out, and what [random], [Faker] and the clock
    return is an input of the model. *)

From Stdlib Require Import Strings.String Strings.Ascii DecimalString.
From Stdlib Require DecimalPos.
From stdpp Require Import base numbers list sorting gmap.

Local Open Scope N_scope.
Set Warnings "-register-all,-clear-no-such-hyp".

(** ** Python strings *)

Module PyStr.

Definition char := N.
Definition str := list char.

(** A string literal of the scripts, as a [str]. *)
Definition lit (s : string) : str := N_of_ascii <$> list_ascii_of_string s.
Arguments lit s%_string.

Definition TAB : char := 9.
Definition LF : char := 10.
Definition CR : char := 13.
Definition PIPE : char := 124.
Definition QUOTE : char := 34.
Definition BACKSLASH : char := 92.

(** [not s] for a string. *)
Definition is_empty (s : str) : bool :=
  match s with [] => true | _ :: _ => false end.

(** [c in chars] for a one-character [c]. *)
Definition char_in (chars : str) (c : char) : bool := existsb (N.eqb c) chars.

(** [str.isspace] on one character: the code points that [str.strip()]
    removes (Unicode 14, the table of CPython 3.11). *)
Definition isspace (c : char) : bool :=
  ((9 <=? c) && (c <=? 13)) || ((28 <=? c) && (c <=? 32))
  || (c =? 133) || (c =? 160) || (c =? 5760)
  || ((8192 <=? c) && (c <=? 8202))
  || (c =? 8232) || (c =? 8233) || (c =? 8239) || (c =? 8287) || (c =? 12288).

Fixpoint lstrip_by (p : char -> bool) (s : str) : str :=
  match s with
  | [] => []
  | c :: s' => if p c then lstrip_by p s' else s
  end.

Fixpoint rstrip_by (p : char -> bool) (s : str) : str :=
  match s with
  | [] => []
  | c :: s' =>
      match rstrip_by p s' with
      | [] => if p c then [] else [c]
      | r => c :: r
      end
  end.

(** [s.rstrip(chars)] *)
Definition rstrip (chars : str) (s : str) : str := rstrip_by (char_in chars) s.

(** [s.strip()] *)
Definition strip (s : str) : str := rstrip_by isspace (lstrip_by isspace s).

(** [s.split(sep)] for a one-character separator: every occurrence splits,
    and the result always has at least one part. *)
Fixpoint split (sep : char) (s : str) : list str :=
  match s with
  | [] => [[]]
  | c :: s' =>
      if c =? sep then [] :: split sep s'
      else match split sep s' with
           | f :: fs => (c :: f) :: fs
           | [] => [[c]]
           end
  end.

(** [s.split(sep, 1)]: at most one split, at the first occurrence. *)
Fixpoint split1 (sep : char) (s : str) : list str :=
  match s with
  | [] => [[]]
  | c :: s' =>
      if c =? sep then [[]; s']
      else match split1 sep s' with
           | f :: fs => (c :: f) :: fs
           | [] => [[c]]
           end
  end.

(** [a < b] on strings: lexicographic on code points. *)
Fixpoint ltb (a b : str) : bool :=
  match a, b with
  | _, [] => false
  | [], _ :: _ => true
  | x :: a', y :: b' =>
      if x <? y then true else if y <? x then false else ltb a' b'
  end.

(** *** [int(s)] and [str(n)] *)

(** First code point of every run of ten decimal digits (general category
    Nd) of Unicode 14; the digit of value [d] is at offset [d]. *)
Definition decimal_zeros : list N :=
  [ 0x30; 0x660; 0x6f0; 0x7c0; 0x966; 0x9e6; 0xa66; 0xae6; 0xb66; 0xbe6;
    0xc66; 0xce6; 0xd66; 0xde6; 0xe50; 0xed0; 0xf20; 0x1040; 0x1090;
    0x17e0; 0x1810; 0x1946; 0x19d0; 0x1a80; 0x1a90; 0x1b50; 0x1bb0;
    0x1c40; 0x1c50; 0xa620; 0xa8d0; 0xa900; 0xa9d0; 0xa9f0; 0xaa50;
    0xabf0; 0xff10; 0x104a0; 0x10d30; 0x11066; 0x110f0; 0x11136; 0x111d0;
    0x112f0; 0x11450; 0x114d0; 0x11650; 0x116c0; 0x11730; 0x118e0;
    0x11950; 0x11c50; 0x11d50; 0x11da0; 0x16a60; 0x16ac0; 0x16b50;
    0x1d7ce; 0x1d7d8; 0x1d7e2; 0x1d7ec; 0x1d7f6; 0x1e140; 0x1e2f0;
    0x1e950; 0x1fbf0 ].

Definition decimal_value (c : char) : option Z :=
  (fun z => Z.of_N (c - z))
    <$> find (fun z => (z <=? c) && (c <? z + 10)) decimal_zeros.

(** [c.isdecimal()] *)
Definition isdecimal (c : char) : bool :=
  match decimal_value c with Some _ => true | None => false end.

Definition UNDERSCORE : char := 95.
Definition PLUS : char := 43.
Definition MINUS : char := 45.

(** The white space [int] itself skips around the literal: the Unicode
    spaces without the four ASCII separators 28..31. *)
Definition int_isspace (c : char) : bool :=
  isspace c && negb ((28 <=? c) && (c <=? 31)).

(** Digits with single underscores between them; [acc] is the value read
    so far.  The caller has checked that the text starts with a digit. *)
Fixpoint int_digits (acc : Z) (s : str) : option Z :=
  match s with
  | [] => Some acc
  | c :: s' =>
      if c =? UNDERSCORE then
        match s' with
        | d :: _ => if isdecimal d then int_digits acc s' else None
        | [] => None
        end
      else
        match decimal_value c with
        | Some d => int_digits (10 * acc + d)%Z s'
        | None => None
        end
  end.

(** [int(s)]: [None] stands for [ValueError]. *)
Definition int (s : str) : option Z :=
  let s := rstrip_by int_isspace (lstrip_by int_isspace s) in
  let '(negative, body) :=
    match s with
    | c :: r =>
        if c =? MINUS then (true, r)
        else if c =? PLUS then (false, r) else (false, s)
    | [] => (false, [])
    end in
  match body with
  | c :: _ =>
      if isdecimal c
      then (fun v => if negative then (- v)%Z else v) <$> int_digits 0 body
      else None
  | [] => None
  end.

(** [str(n)] for an [int]. *)
Definition str_of_int (n : Z) : str := lit (NilZero.string_of_int (Z.to_int n)).

End PyStr.

Import PyStr.

(** ** reducer.py *)

Module Reducer.

(** What the reducer prints on [sys.stderr]; the text is the given prefix
    followed by [repr(line[:80])], of which the argument is kept. *)
Inductive diagnostic :=
  | skip_malformed_line (preview : str)
  | skip_non_integer_count (preview : str).

(** [counts[action] += count] on the [defaultdict(int)]: a key seen for the
    first time is entered with [0] at the end, then the count is added. *)
Fixpoint add (action : str) (count : Z) (counts : list (str * Z))
  : list (str * Z) :=
  match counts with
  | [] => [(action, (0 + count)%Z)]
  | (k, v) :: rest =>
      if decide (k = action) then (k, (v + count)%Z) :: rest
      else (k, v) :: add action count rest
  end.

(** One iteration of the [for line in sys.stdin] loop: the new table and
    the diagnostic printed, if any. *)
Definition body (line : str) (counts : list (str * Z))
  : list (str * Z) * option diagnostic :=
  let line := rstrip [CR; LF] line in
  if is_empty line then (counts, None)
  else
    match split1 TAB line with
    | [p0; p1] =>
        let action := strip p0 in
        let value := strip p1 in
        if is_empty action then (counts, None)
        else
          match int value with
          | Some count => (add action count counts, None)
          | None => (counts, Some (skip_non_integer_count (take 80 line)))
          end
    | _ => (counts, Some (skip_malformed_line (take 80 line)))
    end.

Fixpoint loop (stdin : list str) (counts : list (str * Z))
  : list (str * Z) * list diagnostic :=
  match stdin with
  | [] => (counts, [])
  | line :: stdin' =>
      let '(counts', d) := body line counts in
      let '(final, ds) := loop stdin' counts' in
      (final, option_list d ++ ds)
  end.

(** The sort key [lambda x: (-x[1], x[0])] and [<] on such tuples: the
    first components decide unless they are equal. *)
Definition sort_key (x : str * Z) : Z * str := ((- x.2)%Z, x.1).

Definition key_ltb (a b : Z * str) : bool :=
  if (a.1 =? b.1)%Z then ltb a.2 b.2 else (a.1 <? b.1)%Z.

(** [x] may stand before [y] in the sorted list: [key(y) < key(x)] is
    false. *)
Definition precedes (x y : str * Z) : Prop :=
  key_ltb (sort_key y) (sort_key x) = false.

#[global] Instance precedes_dec x y : Decision (precedes x y) :=
  decide (key_ltb (sort_key y) (sort_key x) = false).

(** [sorted(items, key=lambda x: (-x[1], x[0]))].  Python's sort is
    stable; as the key tells any two different items apart, every sorting
    algorithm gives the same list here ([sorted_unique] below). *)
Definition sorted (items : list (str * Z)) : list (str * Z) :=
  merge_sort precedes items.

(** [print(action, total, sep="\t")] *)
Definition print_entry (x : str * Z) : str :=
  x.1 ++ [TAB] ++ str_of_int x.2 ++ [LF].

(** The table when the input is exhausted. *)
Definition counts_of (stdin : list str) : list (str * Z) := (loop stdin []).1.

(** The entries in the order in which the final loop prints them. *)
Definition result (stdin : list str) : list (str * Z) :=
  sorted (counts_of stdin).

(** [main()]: the lines printed on [sys.stdout] and the diagnostics. *)
Definition main (stdin : list str) : list str * list diagnostic :=
  let '(counts, stderr) := loop stdin [] in
  (print_entry <$> sorted counts, stderr).

End Reducer.

(** ** The [json] module, as far as [json.loads] on a [str] goes *)

Module Json.

(** The Python objects [json.loads] builds.  A [float] is kept as the text
    of its literal: its value, truth and printed form depend on binary
    floating point, which is not modelled.  A [dict] lists its items in
    insertion order, with distinct keys. *)
Inductive value :=
  | PyNone
  | PyBool (b : bool)
  | PyInt (n : Z)
  | PyFloat (literal : str)
  | PyStr (s : str)
  | PyList (items : list value)
  | PyDict (items : list (str * value)).

(** [d[key] = v] *)
Fixpoint dict_set (key : str) (v : value) (d : list (str * value))
  : list (str * value) :=
  match d with
  | [] => [(key, v)]
  | (k, w) :: d' =>
      if decide (k = key) then (k, v) :: d' else (k, w) :: dict_set key v d'
  end.

(** [d.get(key)], with [None] for a missing key. *)
Fixpoint dict_get (key : str) (d : list (str * value)) : value :=
  match d with
  | [] => PyNone
  | (k, w) :: d' => if decide (k = key) then w else dict_get key d'
  end.

(** Outcome of a scanning function: the object and the rest of the text,
    [JSONDecodeError], or the recursion budget of the model used up. *)
Inductive scan (A : Type) :=
  | Ok (a : A) (rest : str)
  | DecodeError
  | OutOfFuel.
Arguments Ok {A} a rest.
Arguments DecodeError {A}.
Arguments OutOfFuel {A}.

Definition ch (a : ascii) : char := N_of_ascii a.
Arguments ch a%_char.

Definition is_whitespace (c : char) : bool :=
  (c =? ch " ") || (c =? TAB) || (c =? LF) || (c =? CR).

Definition skip_whitespace (s : str) : str := lstrip_by is_whitespace s.

Definition is_digit (c : char) : bool := (ch "0" <=? c) && (c <=? ch "9").

Definition hex_digit (c : char) : option N :=
  if is_digit c then Some (c - ch "0")
  else if (ch "a" <=? c) && (c <=? ch "f") then Some (c - ch "a" + 10)
  else if (ch "A" <=? c) && (c <=? ch "F") then Some (c - ch "A" + 10)
  else None.

Definition hex4 (h1 h2 h3 h4 : char) : option N :=
  d1 ← hex_digit h1; d2 ← hex_digit h2;
  d3 ← hex_digit h3; d4 ← hex_digit h4;
  Some (((d1 * 16 + d2) * 16 + d3) * 16 + d4).

(** The escapes of one character after a backslash. *)
Definition backslash (c : char) : option char :=
  if c =? QUOTE then Some (QUOTE)
  else if c =? BACKSLASH then Some (BACKSLASH)
  else if c =? ch "/" then Some (ch "/")
  else if c =? ch "b" then Some 8
  else if c =? ch "f" then Some 12
  else if c =? ch "n" then Some LF
  else if c =? ch "r" then Some CR
  else if c =? ch "t" then Some TAB
  else None.

Definition is_high_surrogate (u : N) : bool := (0xd800 <=? u) && (u <=? 0xdbff).
Definition is_low_surrogate (u : N) : bool := (0xdc00 <=? u) && (u <=? 0xdfff).
Definition join_surrogates (u u2 : N) : N :=
  0x10000 + N.lor (N.shiftl (u - 0xd800) 10) (u2 - 0xdc00).

Definition push (c : char) (r : option (str * str)) : option (str * str) :=
  match r with
  | Some (t, rest) => Some (c :: t, rest)
  | None => None
  end.

(** [scanstring] in strict mode, entered after the opening quote: the
    decoded string and the text after the closing quote. *)
Fixpoint scanstring (s : str) : option (str * str) :=
  match s with
  | [] => None
  | c :: r =>
      if c =? QUOTE then Some ([], r)
      else if c =? BACKSLASH then
        match r with
        | [] => None
        | esc :: r1 =>
            if esc =? ch "u" then
              match r1 with
              | h1 :: h2 :: h3 :: h4 :: r2 =>
                  match hex4 h1 h2 h3 h4 with
                  | None => None
                  | Some uni =>
                      match r2 with
                      | b :: u :: k1 :: k2 :: k3 :: k4 :: r3 =>
                          if is_high_surrogate uni && (b =? BACKSLASH)
                             && (u =? ch "u")
                          then
                            match hex4 k1 k2 k3 k4 with
                            | None => None
                            | Some uni2 =>
                                if is_low_surrogate uni2
                                then push (join_surrogates uni uni2)
                                          (scanstring r3)
                                else push uni (scanstring r2)
                            end
                          else push uni (scanstring r2)
                      | _ => push uni (scanstring r2)
                      end
                  end
              | _ => None
              end
            else
              match backslash esc with
              | Some c' => push c' (scanstring r1)
              | None => None
              end
        end
      else if c <=? 0x1f then None
      else push c (scanstring r)
  end.

(** [s.startswith(prefix)], returning what follows the prefix. *)
Fixpoint after_prefix (prefix s : str) : option str :=
  match prefix, s with
  | [], _ => Some s
  | p :: prefix', c :: s' => if p =? c then after_prefix prefix' s' else None
  | _ :: _, [] => None
  end.

(** The longest prefix of ASCII digits, and the rest. *)
Fixpoint digits (s : str) : str * str :=
  match s with
  | c :: s' =>
      if is_digit c then let '(ds, rest) := digits s' in (c :: ds, rest)
      else ([], s)
  | [] => ([], [])
  end.

Definition digits_value (ds : str) : Z :=
  foldl (fun acc c => (10 * acc + Z.of_N (c - ch "0"))%Z) 0%Z ds.

(** The number at the start of [s]: an optional minus sign; an integer
    part, either a single 0 or a run of digits not starting with 0; an
    optional fraction, a dot and at least one digit; an optional exponent,
    e or E, an optional sign and at least one digit.  It is an [int] when
    there is neither fraction nor exponent, a [float] otherwise. *)
Definition match_number (s : str) : option (value * str) :=
  let '(sign, s1) :=
    match s with
    | c :: r => if c =? ch "-" then ([c], r) else ([], s)
    | [] => ([], [])
    end in
  match s1 with
  | [] => None
  | c :: r =>
      if negb (is_digit c) then None
      else
        let '(integer, s2) :=
          if c =? ch "0" then ([c], r) else digits s1 in
        let '(frac, s3) :=
          match s2 with
          | dot :: d :: _ =>
              if (dot =? ch ".") && is_digit d
              then let '(ds, rest) := digits (tail s2) in (dot :: ds, rest)
              else ([], s2)
          | _ => ([], s2)
          end in
        let '(exp, s4) :=
          match s3 with
          | e :: s3' =>
              if (e =? ch "e") || (e =? ch "E") then
                let '(esign, s3'') :=
                  match s3' with
                  | c' :: r' =>
                      if (c' =? ch "-") || (c' =? ch "+") then ([c'], r')
                      else ([], s3')
                  | [] => ([], [])
                  end in
                match digits s3'' with
                | ([], _) => ([], s3)
                | (ds, rest) => (e :: esign ++ ds, rest)
                end
              else ([], s3)
          | [] => ([], s3)
          end in
        if is_empty frac && is_empty exp
        then
          let n := digits_value integer in
          Some (PyInt (if is_empty sign then n else (- n)%Z), s4)
        else Some (PyFloat (sign ++ integer ++ frac ++ exp), s4)
  end.

Definition constant (name : string) (v : value) (s : str)
  : option (value * str) :=
  match after_prefix (lit name) s with
  | Some rest => Some (v, rest)
  | None => None
  end.

(** The values that need no recursion: string, literal names, number. *)
Definition scan_atom (s : str) : option (value * str) :=
  match s with
  | [] => None
  | c :: r =>
      if c =? QUOTE then
        match scanstring r with
        | Some (t, rest) => Some (PyStr t, rest)
        | None => None
        end
      else
        match constant "null" PyNone s with
        | Some x => Some x
        | None =>
        match constant "true" (PyBool true) s with
        | Some x => Some x
        | None =>
        match constant "false" (PyBool false) s with
        | Some x => Some x
        | None =>
        match constant "NaN" (PyFloat (lit "NaN")) s with
        | Some x => Some x
        | None =>
        match constant "Infinity" (PyFloat (lit "Infinity")) s with
        | Some x => Some x
        | None =>
        match constant "-Infinity" (PyFloat (lit "-Infinity")) s with
        | Some x => Some x
        | None => match_number s
        end end end end end end
  end.

(** [scan_once]: the value at the start of [s].  [object_items] and
    [array_items] are the loops over the members of a non-empty object and
    array; each call uses up one unit of [fuel]. *)
Fixpoint scan_once (fuel : nat) (s : str) : scan value :=
  match fuel with
  | O => OutOfFuel
  | S fuel =>
      match s with
      | [] => DecodeError
      | c :: r =>
          if c =? ch "{" then
            match skip_whitespace r with
            | c' :: r' =>
                if c' =? ch "}" then Ok (PyDict []) r'
                else object_items fuel [] (c' :: r')
            | [] => DecodeError
            end
          else if c =? ch "[" then
            match skip_whitespace r with
            | c' :: r' =>
                if c' =? ch "]" then Ok (PyList []) r'
                else array_items fuel [] (c' :: r')
            | [] => DecodeError
            end
          else
            match scan_atom s with
            | Some (v, rest) => Ok v rest
            | None => DecodeError
            end
      end
  end
with object_items (fuel : nat) (acc : list (str * value)) (s : str)
  : scan value :=
  match fuel with
  | O => OutOfFuel
  | S fuel =>
      match s with
      | [] => DecodeError
      | q :: r =>
          if negb (q =? QUOTE) then DecodeError
          else
            match scanstring r with
            | None => DecodeError
            | Some (key, s1) =>
                match skip_whitespace s1 with
                | [] => DecodeError
                | colon :: s2 =>
                    if negb (colon =? ch ":") then DecodeError
                    else
                      match scan_once fuel (skip_whitespace s2) with
                      | Ok v s3 =>
                          let acc := dict_set key v acc in
                          match skip_whitespace s3 with
                          | [] => DecodeError
                          | c :: s4 =>
                              if c =? ch "}" then Ok (PyDict acc) s4
                              else if c =? ch ","
                              then object_items fuel acc (skip_whitespace s4)
                              else DecodeError
                          end
                      | DecodeError => DecodeError
                      | OutOfFuel => OutOfFuel
                      end
                end
            end
      end
  end
with array_items (fuel : nat) (acc : list value) (s : str) : scan value :=
  match fuel with
  | O => OutOfFuel
  | S fuel =>
      match scan_once fuel s with
      | Ok v s1 =>
          let acc := acc ++ [v] in
          match skip_whitespace s1 with
          | [] => DecodeError
          | c :: s2 =>
              if c =? ch "]" then Ok (PyList acc) s2
              else if c =? ch ","
              then array_items fuel acc (skip_whitespace s2)
              else DecodeError
          end
      | DecodeError => DecodeError
      | OutOfFuel => OutOfFuel
      end
  end.

(** [json.loads(s)]: [None] stands for [JSONDecodeError].  The budget is
    enough for every text ([loads_fuel] below); CPython's own limit on the
    nesting depth ([RecursionError]) is not modelled. *)
Definition loads (s : str) : option value :=
  match s with
  | 0xfeff :: _ => None
  | _ =>
      match scan_once (S (2 * length s)) (skip_whitespace s) with
      | Ok obj rest =>
          if is_empty (skip_whitespace rest) then Some obj else None
      | _ => None
      end
  end.

(** [bool(v)] as in [if v:]; [None] where the model has no answer. *)
Definition truth (v : value) : option bool :=
  match v with
  | PyNone => Some false
  | PyBool b => Some b
  | PyInt n => Some (negb (n =? 0)%Z)
  | PyFloat _ => None
  | PyStr s => Some (negb (is_empty s))
  | PyList items => Some (negb (bool_decide (items = [])))
  | PyDict items => Some (negb (bool_decide (items = [])))
  end.

(** [str(v)]; [None] where the model has no answer: a [float], and the
    containers, whose text is the [repr] of their members. *)
Definition str_of (v : value) : option str :=
  match v with
  | PyNone => Some (lit "None")
  | PyBool b => Some (if b then lit "True" else lit "False")
  | PyInt n => Some (str_of_int n)
  | PyStr s => Some s
  | PyFloat _ | PyList _ | PyDict _ => None
  end.

End Json.

(** ** mapper.py *)

Module Mapper.
Import Json.

(** Action is the 4th field (0-based index 3) for pipe format. *)
Definition ACTION_INDEX : nat := 3.

(** What a call returns: the [return] value, [None] or a string; or
    [Unmodelled] when the call depends on a part of Python that the
    embedding leaves out (the truth or the [str] of a [float], the [str]
    of a list or of a dict). *)
Inductive answer :=
  | Return (action : option str)
  | Unmodelled.

(** The part of [parse_line] under [# Fallback: pipe-separated]. *)
Definition pipe_separated (line : str) : option str :=
  let parts := strip <$> split PIPE line in
  if decide (length parts <= ACTION_INDEX)%nat then None
  else
    let action := strip (default [] (parts !! ACTION_INDEX)) in
    if is_empty action then None else Some action.

Definition parse_line (line : str) : answer :=
  let line := rstrip [CR; LF] line in
  if is_empty line then Return None
  else
    match loads line with
    | Some (PyDict obj) =>
        let action := dict_get (lit "action") obj in
        match truth action with
        | Some true =>
            match str_of action with
            | Some s => Return (Some (strip s))
            | None => Unmodelled
            end
        | Some false => Return (pipe_separated line)
        | None => Unmodelled
        end
    | _ => Return (pipe_separated line)
    end.

(** What one iteration of the loop of [main] prints: on [sys.stdout] and
    on [sys.stderr], each [print] with its final line feed. *)
Record output := { stdout : list str; stderr : list str }.

Definition body (line : str) : option output :=
  match parse_line line with
  | Return None =>
      Some {| stdout := [];
              stderr := [lit "mapper: skip malformed line" ++ lit " "
                           ++ take 80 line ++ [LF]] |}
  | Return (Some action) =>
      Some {| stdout := [action ++ [TAB] ++ lit "1" ++ [LF]]; stderr := [] |}
  | Unmodelled => None
  end.

Fixpoint main (stdin : list str) : option output :=
  match stdin with
  | [] => Some {| stdout := []; stderr := [] |}
  | line :: stdin' =>
      o ← body line;
      o' ← main stdin';
      Some {| stdout := stdout o ++ stdout o';
              stderr := stderr o ++ stderr o' |}
  end.

End Mapper.

(** ** [json.dumps], as [log_generator.py] calls it *)

Module JsonEncode.
Import Json.

(** One digit of the format [x]. *)
Definition hex_char (d : N) : char := if d <? 10 then 48 + d else 87 + d.

(** The escape of the code unit [n], below 65536: a backslash, [u] and the
    four digits of the format [04x]. *)
Definition u_escape (n : N) : str :=
  [BACKSLASH; ch "u"; hex_char (n / 4096); hex_char (n / 256 mod 16);
   hex_char (n / 16 mod 16); hex_char (n mod 16)].

(** What one character of a string becomes: itself when it is printable
    ASCII other than the quote and the backslash, else its escape; a code
    point from 65536 on gives the escapes of its two surrogates. *)
Definition escape (c : char) : str :=
  if c =? QUOTE then [BACKSLASH; QUOTE]
  else if c =? BACKSLASH then [BACKSLASH; BACKSLASH]
  else if c =? 8 then [BACKSLASH; ch "b"]
  else if c =? 12 then [BACKSLASH; ch "f"]
  else if c =? LF then [BACKSLASH; ch "n"]
  else if c =? CR then [BACKSLASH; ch "r"]
  else if c =? TAB then [BACKSLASH; ch "t"]
  else if (32 <=? c) && (c <=? 126) then [c]
  else if c <? 0x10000 then u_escape c
  else
    let n := c - 0x10000 in
    u_escape (N.lor 0xd800 (N.land (N.shiftr n 10) 0x3ff))
      ++ u_escape (N.lor 0xdc00 (N.land n 0x3ff)).

(** [encode_basestring_ascii]: the string in quotes, escaped. *)
Definition encode_basestring_ascii (s : str) : str :=
  [QUOTE] ++ flat_map escape s ++ [QUOTE].

(** [sep.join(texts)] *)
Fixpoint join (sep : str) (texts : list str) : str :=
  match texts with
  | [] => []
  | [t] => t
  | t :: texts' => t ++ sep ++ join sep texts'
  end.

(** [json.dumps(v)] with the default separators; [None] where the text
    depends on binary floating point. *)
Fixpoint dumps (v : value) : option str :=
  match v with
  | PyNone => Some (lit "null")
  | PyBool b => Some (if b then lit "true" else lit "false")
  | PyInt n => Some (str_of_int n)
  | PyFloat _ => None
  | PyStr s => Some (encode_basestring_ascii s)
  | PyList items =>
      texts ← (fix each (items : list value) : option (list str) :=
                 match items with
                 | [] => Some []
                 | x :: items' =>
                     t ← dumps x; ts ← each items'; Some (t :: ts)
                 end) items;
      Some (lit "[" ++ join (lit ", ") texts ++ lit "]")
  | PyDict items =>
      texts ← (fix each (items : list (str * value)) : option (list str) :=
                 match items with
                 | [] => Some []
                 | (k, x) :: items' =>
                     t ← dumps x; ts ← each items';
                     Some ((encode_basestring_ascii k ++ lit ": " ++ t) :: ts)
                 end) items;
      Some (lit "{" ++ join (lit ", ") texts ++ lit "}")
  end.

End JsonEncode.

(** ** log_generator.py

    The values that [random], [Faker] and the clock hand out are inputs of
    the model: a record of [draws] holds, for one log entry, the outcome of
    every call.  [random.choice(seq)] is [seq[i]] for a drawn index below
    [len(seq)], [random.randint(a, b)] is [a] plus a drawn number below
    [b - a + 1]; the weights of [random.choices] bear on how often an index
    is drawn, not on which ones can be.  The command line, the pacing of
    the loop and the signals are left out. *)

Module Generator.
Import Json.

Definition LEVELS : list str := [lit "INFO"; lit "WARNING"; lit "ERROR"].

Definition ACTIONS : list str :=
  [lit "LOGIN"; lit "LOGOUT"; lit "PURCHASE"; lit "VIEW"; lit "SEARCH";
   lit "CLICK"; lit "ERROR"].

Definition MESSAGE_TEMPLATES : list (str * list str) :=
  [(lit "LOGIN",
    [lit "User authenticated successfully"; lit "Session started";
     lit "Login attempt from device"]);
   (lit "LOGOUT",
    [lit "User signed out"; lit "Session terminated"; lit "Logout requested"]);
   (lit "PURCHASE",
    [lit "Order completed"; lit "Payment processed";
     lit "Checkout successful"]);
   (lit "VIEW",
    [lit "Product page viewed"; lit "Page load completed";
     lit "Content displayed"]);
   (lit "SEARCH",
    [lit "Search query executed"; lit "Results returned";
     lit "Search performed"]);
   (lit "CLICK",
    [lit "Button clicked"; lit "Link followed"; lit "Element interaction"]);
   (lit "ERROR",
    [lit "Operation failed"; lit "Request timeout"; lit "Unexpected error"])].

Definition USER_POOL_SIZE : Z := 50.

(** [_make_user_pool(faker, size)]; [user_name i] and [uuid4 i] are what
    the [i]-th call of [faker.user_name()] and of [str(faker.uuid4())]
    returns.  A range of negative length is empty. *)
Definition _make_user_pool (user_name uuid4 : nat -> str) (size : Z)
  : list str :=
  let pool := user_name <$> seq 0 (Z.to_nat (size / 2)) in
  pool ++ (uuid4 <$> seq 0 (Z.to_nat (size - Z.of_nat (length pool)))).

(** [random.choice(seq)] for the drawn number [r]; [None] stands for the
    [IndexError] on an empty sequence. *)
Definition choice {A} (seq : list A) (r : nat) : option A :=
  seq !! (r mod length seq)%nat.

(** [random.randint(a, b)] for the drawn number [r]. *)
Definition randint (a b : Z) (r : nat) : Z :=
  (a + Z.of_nat r mod (b - a + 1))%Z.

(** [d[key]] on a dict of constants; [None] stands for [KeyError]. *)
Fixpoint getitem {A} (d : list (str * A)) (key : str) : option A :=
  match d with
  | [] => None
  | (k, x) :: d' => if decide (k = key) then Some x else getitem d' key
  end.

Record draws := {
  level_index : nat;      (* random.choices(LEVELS, weights=...)[0] *)
  action_index : nat;     (* random.choice(ACTIONS) *)
  below_06 : bool;        (* random.random() < 0.6 *)
  template_index : nat;   (* random.choice(templates) *)
  below_04 : bool;        (* random.random() < 0.4 *)
  sentence : str;         (* faker.sentence(...) *)
  time_draw : nat;        (* random.randint(...) *)
  user_index : nat;       (* random.choice(user_pool) *)
  timestamp : str;        (* datetime.now(timezone.utc).isoformat() *)
  ip : str                (* faker.ipv4_public() *)
}.

Definition generate_log_line (d : draws) (user_pool : list str)
  : option (list (str * value)) :=
  level ← choice LEVELS (level_index d);
  action ← choice ACTIONS (action_index d);
  let action :=
    if bool_decide (level = lit "ERROR") && below_06 d then lit "ERROR"
    else action in
  templates ← getitem MESSAGE_TEMPLATES action;
  message ← choice templates (template_index d);
  let message :=
    if below_04 d then rstrip (lit ".") (sentence d) else message in
  let response_time_ms :=
    if bool_decide (level = lit "ERROR") then randint 2000 30000 (time_draw d)
    else if bool_decide (level = lit "WARNING")
         then randint 500 5000 (time_draw d)
         else randint 10 2000 (time_draw d) in
  user_id ← choice user_pool (user_index d);
  Some [(lit "timestamp", PyStr (timestamp d));
        (lit "level", PyStr level);
        (lit "user_id", PyStr user_id);
        (lit "action", PyStr action);
        (lit "message", PyStr message);
        (lit "response_time", PyInt response_time_ms);
        (lit "ip", PyStr (ip d))].

(** One turn of the loop of [main]: [print(json.dumps(log_entry))]. *)
Definition print_log_line (d : draws) (user_pool : list str) : option str :=
  log_entry ← generate_log_line d user_pool;
  text ← JsonEncode.dumps (PyDict log_entry);
  Some (text ++ [LF]).

(** The loop of [main], with one element of [turns] for each turn it
    takes: the lines printed. *)
Fixpoint loop (turns : list draws) (user_pool : list str)
  : option (list str) :=
  match turns with
  | [] => Some []
  | d :: turns' =>
      line ← print_log_line d user_pool;
      lines ← loop turns' user_pool;
      Some (line :: lines)
  end.

(** [main]: the pool is made once, before the loop. *)
Definition main (user_name uuid4 : nat -> str) (turns : list draws)
  : option (list str) :=
  let user_pool := _make_user_pool user_name uuid4 USER_POOL_SIZE in
  loop turns user_pool.

End Generator.

(** ** Notions used in the statements *)

(** Appending [t] to the last part of a split. *)
Fixpoint app_last (t : str) (parts : list str) : list str :=
  match parts with
  | [] => []
  | [part] => [part ++ t]
  | part :: parts' => part :: app_last t parts'
  end.

(** The pair a line of the reducer's input contributes: the loop body adds
    [count] to [counts[action]] for exactly these lines ([body_accepted]
    below), and leaves the table alone for all others. *)
Definition accepted (line : str) : option (str * Z) :=
  let line := rstrip [CR; LF] line in
  match split1 TAB line with
  | [p0; p1] =>
      if is_empty (strip p0) then None
      else count ← int (strip p1); Some (strip p0, count)
  | _ => None
  end.

(** The table as a finite map, and [counts[action] += count] on it. *)
Definition table (counts : list (str * Z)) : gmap str Z := list_to_map counts.

Definition table_add (m : gmap str Z) (x : str * Z) : gmap str Z :=
  <[x.1 := (default 0 (m !! x.1) + x.2)%Z]> m.

(** The sum of the counts that the pairs [xs] hold for [action]. *)
Definition total_for (action : str) (xs : list (str * Z)) : Z :=
  foldr (fun x acc => if decide (x.1 = action) then (x.2 + acc)%Z else acc)
        0%Z xs.

(** The JSON attempt of [parse_line] returns nothing and control reaches
    the pipe-separated fallback: the line is no JSON document, or the
    document is no object, or the [action] of the object is missing or
    false as a condition ([None], [False], [0], the empty string). *)
Definition json_declines (line : str) : Prop :=
  match Json.loads line with
  | Some (Json.PyDict obj) =>
      Json.truth (Json.dict_get (lit "action") obj) = Some false
  | _ => True
  end.

(** Input lines for the examples: [key TAB count LF], and a string in
    double quotes. *)
Definition pair_line (key count : string) : str :=
  lit key ++ [TAB] ++ lit count ++ [LF].

Definition quoted (s : string) : str := [QUOTE] ++ lit s ++ [QUOTE].

(** The line that holds the JSON object with the single member [action],
    whose value is the given JSON text. *)
Definition action_line (value : str) : str :=
  lit "{" ++ quoted "action" ++ lit ": " ++ value ++ lit "}" ++ [LF].


Definition line_json_login : str :=
  lit "{" ++ quoted "action" ++ lit ":" ++ quoted "LOGIN" ++ lit "}" ++ [LF].

Definition line_tab_at_end : str := lit "A" ++ [TAB] ++ lit "1" ++ [TAB; LF].

Definition line_three_parts : str :=
  lit "A" ++ [TAB] ++ lit "1" ++ [TAB] ++ lit "2" ++ [LF].

(** The characters of a run of decimal digits. *)
Fixpoint uint_chars (d : Decimal.uint) : str :=
  match d with
  | Decimal.Nil => []
  | Decimal.D0 l => 48 :: uint_chars l
  | Decimal.D1 l => 49 :: uint_chars l
  | Decimal.D2 l => 50 :: uint_chars l
  | Decimal.D3 l => 51 :: uint_chars l
  | Decimal.D4 l => 52 :: uint_chars l
  | Decimal.D5 l => 53 :: uint_chars l
  | Decimal.D6 l => 54 :: uint_chars l
  | Decimal.D7 l => 55 :: uint_chars l
  | Decimal.D8 l => 56 :: uint_chars l
  | Decimal.D9 l => 57 :: uint_chars l
  end.
(** The value of a run of decimal digits read after [acc]. *)
Fixpoint uint_val (acc : Z) (d : Decimal.uint) : Z :=
  match d with
  | Decimal.Nil => acc
  | Decimal.D0 l => uint_val (10 * acc + 0) l
  | Decimal.D1 l => uint_val (10 * acc + 1) l
  | Decimal.D2 l => uint_val (10 * acc + 2) l
  | Decimal.D3 l => uint_val (10 * acc + 3) l
  | Decimal.D4 l => uint_val (10 * acc + 4) l
  | Decimal.D5 l => uint_val (10 * acc + 5) l
  | Decimal.D6 l => uint_val (10 * acc + 6) l
  | Decimal.D7 l => uint_val (10 * acc + 7) l
  | Decimal.D8 l => uint_val (10 * acc + 8) l
  | Decimal.D9 l => uint_val (10 * acc + 9) l
  end%Z.

(** A key as the reducer stores it: not empty, trimmed, without a tab. *)
Definition stored_key (k : str) : Prop := k <> [] /\ strip k = k /\ TAB ∉ k.



(** The diagnostic the reducer prints for a line, if any. *)
Definition diagnostic_of (line : str) : option Reducer.diagnostic :=
  (Reducer.body line []).2.


(** The pair the mapper prints for a key: [print(action, "1", sep="\t")]. *)
Definition emitted (k : str) : str := k ++ [TAB] ++ lit "1" ++ [LF].

(** The number of occurrences of a key in a list of keys. *)
Definition occurrences (k : str) (keys : list str) : Z :=
  Z.of_nat (length (filter (.= k) keys)).

(** The text shown in a diagnostic of the reducer. *)
Definition preview (d : Reducer.diagnostic) : str :=
  match d with
  | Reducer.skip_malformed_line p | Reducer.skip_non_integer_count p => p
  end.



(** A code point that is no surrogate, and a string made of such: the
    strings that an encoding of text can hold. *)
Definition scalar (c : char) : bool :=
  (c <? 0xd800) || ((0xe000 <=? c) && (c <? 0x110000)).

Definition text (s : str) : Prop := forallb scalar s = true.

(** What may follow a value in a JSON text: nothing, a comma, or the end
    of the enclosing object or array. *)
Definition ends_value (rest : str) : bool :=
  match rest with
  | [] => true
  | c :: _ => (c =? 44) || (c =? 125) || (c =? 93)
  end.

(** A field of a log entry: a string of text or an integer. *)
Definition field (v : Json.value) : Prop :=
  match v with
  | Json.PyStr s => text s
  | Json.PyInt _ => True
  | _ => False
  end.

(** A value that is a string or an integer. *)
Definition str_or_int (v : Json.value) : Prop :=
  match v with
  | Json.PyStr _ | Json.PyInt _ => True
  | _ => False
  end.

(** A flat record: distinct keys of text, with fields as values. *)
Definition flat_record (items : list (str * Json.value)) : Prop :=
  NoDup items.*1 /\ Forall (fun kv => text kv.1 /\ field kv.2) items.

(** The JSON text of a field and of a member of a flat record. *)
Definition field_text (v : Json.value) : str :=
  match v with
  | Json.PyStr s => JsonEncode.encode_basestring_ascii s
  | Json.PyInt n => str_of_int n
  | _ => []
  end.

Definition item_text (kv : str * Json.value) : str :=
  JsonEncode.encode_basestring_ascii kv.1 ++ lit ": " ++ field_text kv.2.

(** A printable ASCII character. *)
Definition printable (c : char) : bool := (32 <=? c) && (c <=? 126).

(** The action of the log entry made from the draws [d]. *)
Definition entry_action (d : Generator.draws) (user_pool : list str)
  : option str :=
  match Generator.generate_log_line d user_pool with
  | Some log_entry =>
      match Json.dict_get (lit "action") log_entry with
      | Json.PyStr action => Some action
      | _ => None
      end
  | None => None
  end.

(** The strings of one turn that come from Faker and from the clock. *)
Definition text_draws (d : Generator.draws) : Prop :=
  text (Generator.timestamp d) /\ text (Generator.sentence d)
  /\ text (Generator.ip d).

(** Draws for the examples: an [ERROR] entry whose action is forced. *)
Definition sample_draws : Generator.draws :=
  {| Generator.level_index := 2;
     Generator.action_index := 0;
     Generator.below_06 := true;
     Generator.template_index := 4;
     Generator.below_04 := false;
     Generator.sentence := lit "Some words here.";
     Generator.time_draw := 123;
     Generator.user_index := 3;
     Generator.timestamp := lit "2024-01-01T00:00:00+00:00";
     Generator.ip := lit "8.8.8.8" |}.

(** * Properties *)

(** ** Strings *)

Section str_facts.
Implicit Types (s t : str) (c : char) (pr : char -> bool).

Lemma rstrip_by_app_all pr s t :
  forallb pr t = true -> rstrip_by pr (s ++ t) = rstrip_by pr s.
Proof.
  intros Ht. induction s as [|c s IH]; simpl.
  - induction t as [|c t IHt]; simpl in *; [done|].
    apply andb_prop in Ht as [Hc Ht]. by rewrite IHt, Hc.
  - by rewrite IH.
Qed.

(** [rstrip] cuts off a suffix made of the given characters. *)
Lemma rstrip_by_split pr s :
  exists t, s = rstrip_by pr s ++ t /\ forallb pr t = true.
Proof.
  induction s as [|c s (t & Hs & Ht)]; simpl.
  - by exists [].
  - destruct (rstrip_by pr s) as [|d r] eqn:E.
    + destruct (pr c) eqn:Hc.
      * exists (c :: t). simpl in *. rewrite Hc, Ht. by rewrite Hs at 1.
      * exists t. simpl in *. by rewrite Hs at 1.
    + exists t. split; [|done]. simpl. by rewrite Hs at 1.
Qed.

Lemma rstrip_by_idemp pr s : rstrip_by pr (rstrip_by pr s) = rstrip_by pr s.
Proof.
  induction s as [|c s IH]; simpl; [done|].
  destruct (rstrip_by pr s) as [|d r] eqn:E.
  - destruct (pr c) eqn:Hc; simpl; [done|by rewrite Hc].
  - change (rstrip_by pr (c :: d :: r)) with
      (match rstrip_by pr (d :: r) with
       | [] => if pr c then [] else [c] | x => c :: x end).
    by rewrite IH.
Qed.

Lemma rstrip_by_cons_keep pr c s :
  pr c = false -> exists r, rstrip_by pr (c :: s) = c :: r.
Proof.
  intros Hc. simpl. destruct (rstrip_by pr s); rewrite ?Hc; eauto.
Qed.

Lemma lstrip_by_all pr s : forallb pr s = true -> lstrip_by pr s = [].
Proof.
  induction s as [|c s IH]; simpl; [done|].
  intros [Hc Hs]%andb_prop. rewrite Hc. auto.
Qed.

(** A stripped string does not begin with white space. *)
Lemma lstrip_by_head pr s :
  lstrip_by pr s = [] \/ exists c r, lstrip_by pr s = c :: r /\ pr c = false.
Proof.
  induction s as [|c s IH]; simpl; [by left|].
  destruct (pr c) eqn:Hc; [done|]. right. eauto.
Qed.

Lemma strip_idemp s : strip (strip s) = strip s.
Proof.
  unfold strip. destruct (lstrip_by_head isspace s) as [->|(c & r & -> & Hc)].
  - done.
  - destruct (rstrip_by_cons_keep isspace c r Hc) as [r' E].
    rewrite E at 1. simpl lstrip_by. rewrite Hc, <- E.
    apply rstrip_by_idemp.
Qed.

Lemma strip_all_space s : forallb isspace s = true -> strip s = [].
Proof. intros H. unfold strip. by rewrite lstrip_by_all. Qed.

(** White space after a field does not change the stripped field. *)
Lemma strip_app_space s t :
  forallb isspace t = true -> strip (s ++ t) = strip s.
Proof.
  intros Ht. unfold strip. induction s as [|c s IH].
  - simpl. by rewrite lstrip_by_all.
  - rewrite <- app_comm_cons. cbn [lstrip_by].
    destruct (isspace c); [done|].
    rewrite app_comm_cons. by apply rstrip_by_app_all.
Qed.

Lemma is_empty_nil s : is_empty s = true <-> s = [].
Proof. by destruct s. Qed.

Lemma is_empty_false s : is_empty s = false <-> s <> [].
Proof. by destruct s. Qed.

Lemma char_in_spec chars c : char_in chars c = true <-> c ∈ chars.
Proof.
  unfold char_in. rewrite existsb_exists. split.
  - intros (x & Hx%list_elem_of_In & ->%N.eqb_eq). done.
  - intros H. exists c. by rewrite <- list_elem_of_In, N.eqb_refl.
Qed.

Lemma line_end_isspace t :
  forallb (char_in [CR; LF]) t = true -> forallb isspace t = true.
Proof.
  induction t as [|c t IH]; cbn [forallb]; [done|].
  intros [Hc Ht]%andb_prop. rewrite IH by done.
  apply char_in_spec in Hc.
  assert (c = CR \/ c = LF) as Hc' by set_solver.
  by destruct Hc' as [-> | ->].
Qed.

(** *** [split] *)

Lemma split_not_nil sep s : split sep s <> [].
Proof. destruct s as [|c s]; simpl; [done|]. by repeat case_match. Qed.

Lemma split_no_sep sep t : sep ∉ t -> split sep t = [t].
Proof.
  induction t as [|c t IH]; simpl; [done|].
  intros H. destruct (N.eqb_spec c sep) as [->|_]; [set_solver|].
  rewrite IH by set_solver. done.
Qed.

Lemma split_app_no_sep sep s t :
  sep ∉ t -> split sep (s ++ t) = app_last t (split sep s).
Proof.
  intros Ht. induction s as [|c s IH]; simpl.
  - by apply split_no_sep.
  - pose proof (split_not_nil sep s) as Hne.
    destruct (c =? sep).
    + rewrite IH. by destruct (split sep s).
    + rewrite IH. destruct (split sep s) as [|f [|g fs]]; done.
Qed.

Lemma fmap_strip_app_last t (parts : list str) :
  forallb isspace t = true -> strip <$> app_last t parts = strip <$> parts.
Proof.
  intros Ht. induction parts as [|f [|g fs] IH]; [done| |].
  - simpl. by rewrite strip_app_space.
  - change (app_last t (f :: g :: fs)) with (f :: app_last t (g :: fs)).
    rewrite !fmap_cons, IH. done.
Qed.

(** The stripped fields of a line do not depend on its terminator. *)
Lemma split_rstrip_line line :
  strip <$> split PIPE (rstrip [CR; LF] line) = strip <$> split PIPE line.
Proof.
  unfold rstrip.
  destruct (rstrip_by_split (char_in [CR; LF]) line) as (t & E & Ht).
  rewrite E at 2. rewrite split_app_no_sep, fmap_strip_app_last.
  - done.
  - by apply line_end_isspace.
  - intros Hin. rewrite forallb_forall in Ht.
    apply list_elem_of_In, Ht in Hin. done.
Qed.

(** *** [split1] *)

Lemma split1_no_sep sep s : sep ∉ s -> split1 sep s = [s].
Proof.
  induction s as [|c s IH]; simpl; [done|].
  intros H. destruct (N.eqb_spec c sep) as [->|_]; [set_solver|].
  rewrite IH by set_solver. done.
Qed.

Lemma split1_sep sep s :
  sep ∈ s ->
  exists p0 p1, split1 sep s = [p0; p1] /\ s = p0 ++ sep :: p1 /\ sep ∉ p0.
Proof.
  induction s as [|c s IH]; simpl; [set_solver|].
  intros H. destruct (N.eqb_spec c sep) as [->|Hne].
  - exists [], s. set_solver.
  - destruct IH as (p0 & p1 & -> & -> & Hp0); [set_solver|].
    exists (c :: p0), p1. set_solver.
Qed.

(** *** The order on strings *)

Lemma ltb_irrefl s : ltb s s = false.
Proof. induction s as [|c s IH]; simpl; [done|]. by rewrite N.ltb_irrefl. Qed.

Lemma ltb_total s t : ltb s t = false -> ltb t s = false -> s = t.
Proof.
  revert t. induction s as [|c s IH]; intros [|d t]; simpl; try done.
  destruct (N.ltb_spec c d), (N.ltb_spec d c); try done.
  intros. f_equal; [lia|auto].
Qed.

Lemma ltb_asym s t : ltb s t = true -> ltb t s = false.
Proof.
  revert t. induction s as [|c s IH]; intros [|d t]; simpl; try done.
  destruct (N.ltb_spec c d), (N.ltb_spec d c); try done; [lia|auto].
Qed.

Lemma ltb_trans s t u : ltb s t = true -> ltb t u = true -> ltb s u = true.
Proof.
  revert t u. induction s as [|c s IH]; intros [|d t] [|e u]; simpl; try done.
  destruct (N.ltb_spec c d), (N.ltb_spec d c), (N.ltb_spec d e),
    (N.ltb_spec e d), (N.ltb_spec c e), (N.ltb_spec e c);
    try done; try lia.
  apply IH.
Qed.
End str_facts.

(** ** The reducer *)

Section reducer_facts.
Import Reducer.
Implicit Types (counts : list (str * Z)) (stdin : list str) (line : str).
Implicit Types (m : gmap str Z) (x y z : str * Z).

(** The loop body, in terms of the pair the line contributes. *)
Lemma body_accepted line counts :
  (body line counts).1 =
    match accepted line with
    | Some (action, count) => add action count counts
    | None => counts
    end.
Proof.
  unfold body, accepted.
  destruct (rstrip [CR; LF] line) as [|c l] eqn:E; [done|].
  cbn [is_empty].
  destruct (split1 TAB (c :: l)) as [|p0 [|p1 [|? ?]]]; try done.
  destruct (is_empty (strip p0)); [done|].
  by destruct (int (strip p1)).
Qed.

Lemma loop_accepted stdin counts :
  (loop stdin counts).1 =
    foldl (fun cs x => add x.1 x.2 cs) counts (omap accepted stdin).
Proof.
  revert counts. induction stdin as [|line stdin IH]; intros counts; [done|].
  cbn [loop omap list_omap]. pose proof (body_accepted line counts) as Hb.
  destruct (body line counts) as [counts' d]. simpl in Hb. subst counts'.
  specialize (IH (match accepted line with
                  | Some (action, count) => add action count counts
                  | None => counts end)).
  destruct (loop stdin _) as [final ds]. simpl in *. subst final.
  by destruct (accepted line) as [[a n]|].
Qed.

(** *** The table keeps one entry per key *)

Lemma add_keys action count counts :
  (add action count counts).*1 =
    if decide (action ∈ counts.*1) then counts.*1 else counts.*1 ++ [action].
Proof.
  induction counts as [|[k v] counts IH]; [done|]. cbn [add].
  destruct (decide (k = action)) as [->|Hne]; rewrite !fmap_cons; cbn [fst].
  - rewrite decide_True by left. done.
  - rewrite IH. destruct (decide (action ∈ counts.*1)).
    + rewrite decide_True by (by right). done.
    + rewrite decide_False; [done|]. by intros [?|?]%elem_of_cons.
Qed.

Lemma add_NoDup action count counts :
  NoDup counts.*1 -> NoDup (add action count counts).*1.
Proof.
  intros H. rewrite add_keys. case_decide; [done|].
  apply NoDup_app. split_and!; [done| |apply NoDup_singleton].
  intros k Hk ->%list_elem_of_singleton. done.
Qed.

Lemma table_add_counts action count counts :
  table (add action count counts) = table_add (table counts) (action, count).
Proof.
  unfold table, table_add. simpl.
  induction counts as [|[k v] counts IH]; simpl.
  - by rewrite lookup_empty.
  - destruct (decide (k = action)) as [->|Hne]; simpl.
    + by rewrite lookup_insert_eq, insert_insert_eq.
    + rewrite IH, lookup_insert_ne by done. by rewrite insert_insert_ne.
Qed.

Lemma fold_add_NoDup (xs : list (str * Z)) counts :
  NoDup counts.*1 -> NoDup (foldl (fun cs x => add x.1 x.2 cs) counts xs).*1.
Proof.
  revert counts. induction xs as [|x xs IH]; intros counts H; [done|].
  simpl. by apply IH, add_NoDup.
Qed.

Lemma table_fold_add (xs : list (str * Z)) counts :
  table (foldl (fun cs x => add x.1 x.2 cs) counts xs)
  = foldl table_add (table counts) xs.
Proof.
  revert counts. induction xs as [|[a n] xs IH]; intros counts; [done|].
  simpl. by rewrite IH, table_add_counts.
Qed.

Lemma counts_of_NoDup stdin : NoDup (counts_of stdin).*1.
Proof.
  unfold counts_of. rewrite loop_accepted.
  apply fold_add_NoDup. constructor.
Qed.

Lemma table_counts_of stdin :
  table (counts_of stdin) = foldl table_add ∅ (omap accepted stdin).
Proof. unfold counts_of. by rewrite loop_accepted, table_fold_add. Qed.

(** *** Additions commute *)

Lemma table_add_comm m x y :
  table_add (table_add m x) y = table_add (table_add m y) x.
Proof.
  destruct x as [a n], y as [b k]. unfold table_add. simpl.
  destruct (decide (a = b)) as [->|Hne].
  - rewrite !lookup_insert_eq, !insert_insert_eq. simpl. f_equal. lia.
  - rewrite !lookup_insert_ne by done. by apply insert_insert_ne.
Qed.

Lemma fold_table_add_perm (xs ys : list (str * Z)) m :
  xs ≡ₚ ys -> foldl table_add m xs = foldl table_add m ys.
Proof.
  intros H. revert m.
  induction H as [|x xs ys _ IH|x y xs|xs ys zs _ IH1 _ IH2]; intros m; simpl.
  - done.
  - apply IH.
  - by rewrite table_add_comm.
  - by rewrite IH1.
Qed.

Lemma total_for_absent (xs : list (str * Z)) action :
  action ∉ xs.*1 -> total_for action xs = 0%Z.
Proof.
  induction xs as [|[a n] xs IH]; [done|].
  rewrite fmap_cons, not_elem_of_cons. cbn [fst total_for foldr snd].
  intros [Hne Hxs]. rewrite decide_False by done. by apply IH.
Qed.

(** The totals are the sums of the counts given for each key. *)
Lemma fold_table_add_lookup (xs : list (str * Z)) m action :
  foldl table_add m xs !! action =
    if decide (action ∈ xs.*1)
    then Some (default 0 (m !! action) + total_for action xs)%Z
    else m !! action.
Proof.
  revert m. induction xs as [|[a n] xs IH]; intros m; [done|].
  cbn [foldl]. rewrite IH, fmap_cons. cbn [total_for foldr fst snd].
  fold (total_for action xs).
  unfold table_add at 1 2. cbn [fst snd].
  destruct (decide (a = action)) as [->|Hne].
  - rewrite lookup_insert_eq,
      (decide_True (P := action ∈ action :: _)) by left.
    cbn [default]. case_decide as Hin.
    + f_equal. unfold id. lia.
    + rewrite (total_for_absent xs action Hin). f_equal. unfold id. lia.
  - rewrite lookup_insert_ne by done.
    destruct (decide (action ∈ xs.*1)).
    + rewrite decide_True by (by right). done.
    + rewrite decide_False; [done|]. intros [?|?]%elem_of_cons; done.
Qed.
End reducer_facts.

(** ** The order of the output *)

Section order_facts.
Import Reducer.
Implicit Types (x y z : str * Z) (stdin : list str).

(** [x] may stand before [y] when its total is larger, or when the totals
    are equal and the key of [y] is not smaller. *)
Lemma precedes_spec x y :
  precedes x y <-> (y.2 < x.2)%Z \/ (x.2 = y.2 /\ ltb y.1 x.1 = false).
Proof.
  unfold precedes, key_ltb, sort_key. cbn [fst snd].
  destruct (Z.eqb_spec (- y.2) (- x.2)) as [E|E].
  - split; [intros H; right; split; [lia|done]|].
    intros [?|[_ ?]]; [lia|done].
  - rewrite Z.ltb_ge. split; [intros; left; lia|].
    intros [?|[? _]]; lia.
Qed.

#[local] Instance precedes_total : Total precedes.
Proof.
  intros x y. rewrite !precedes_spec.
  destruct (Z.lt_trichotomy x.2 y.2) as [?|[E|?]];
    [by right; left| |by left; left].
  destruct (ltb y.1 x.1) eqn:Hyx.
  - right. right. split; [done|]. by apply ltb_asym.
  - left. right. done.
Qed.

#[local] Instance precedes_trans : Transitive precedes.
Proof.
  intros x y z. rewrite !precedes_spec.
  intros [?|[Exy Hyx]] [?|[Eyz Hzy]]; [left; lia..|].
  right. split; [lia|].
  destruct (ltb z.1 x.1) eqn:Hzx; [|done].
  destruct (ltb y.1 z.1) eqn:Hyz.
  - by rewrite (ltb_trans _ _ _ Hyz Hzx) in Hyx.
  - rewrite (ltb_total _ _ Hyz Hzy), Hzx in Hyx. done.
Qed.

(** The key [(-x[1], x[0])] tells the items apart, so no two different
    items are equal in the order: the sorted list is the same whichever
    sorting algorithm produces it. *)
#[local] Instance precedes_antisym : AntiSymm (=) precedes.
Proof.
  intros [a n] [b k]. rewrite !precedes_spec. cbn [fst snd].
  intros [?|[E Hba]] [?|[E' Hab]]; try lia.
  by rewrite E, (ltb_total _ _ Hab Hba).
Qed.

Lemma sorted_perm (items : list (str * Z)) : sorted items ≡ₚ items.
Proof. apply merge_sort_Permutation. Qed.

Lemma sorted_strongly (items : list (str * Z)) :
  StronglySorted precedes (sorted items).
Proof. apply StronglySorted_merge_sort; apply _. Qed.

(** Every list in the order that holds the same items is [sorted items]. *)
Lemma sorted_unique (items l : list (str * Z)) :
  l ≡ₚ items -> Sorted precedes l -> l = sorted items.
Proof.
  intros Hp Hs. apply (Sorted_unique precedes); [done| |].
  - apply Sorted_merge_sort; apply _.
  - by rewrite sorted_perm.
Qed.

Lemma sorted_of_perm (items items' : list (str * Z)) :
  items ≡ₚ items' -> sorted items = sorted items'.
Proof.
  intros Hp. apply sorted_unique.
  - by rewrite sorted_perm.
  - apply Sorted_merge_sort; apply _.
Qed.

Lemma StronglySorted_lookup {A} (R : relation A) (l : list A) i j a b :
  StronglySorted R l -> (i < j)%nat ->
  l !! i = Some a -> l !! j = Some b -> R a b.
Proof.
  intros Hl. revert i j. induction Hl as [|c l Hl IH Hc]; intros i j Hij Hi Hj.
  - done.
  - destruct j as [|j]; [lia|]. destruct i as [|i]; simpl in *.
    + simplify_eq. rewrite Forall_forall in Hc.
      apply Hc. by eapply list_elem_of_lookup_2.
    + apply (IH i j); [lia|done..].
Qed.

Lemma result_perm stdin : result stdin ≡ₚ counts_of stdin.
Proof. apply sorted_perm. Qed.

Lemma result_NoDup stdin : NoDup (result stdin).*1.
Proof. rewrite result_perm. apply counts_of_NoDup. Qed.

(** What [main] prints is the entries of [result], one per line. *)
Lemma main_stdout stdin : (main stdin).1 = print_entry <$> result stdin.
Proof.
  unfold main, result, counts_of. by destruct (loop stdin []).
Qed.

Lemma counts_of_perm stdin stdin' :
  stdin ≡ₚ stdin' -> counts_of stdin ≡ₚ counts_of stdin'.
Proof.
  intros Hp. apply list_to_map_inj; [apply counts_of_NoDup..|].
  fold (table (counts_of stdin)). fold (table (counts_of stdin')).
  rewrite !table_counts_of. apply fold_table_add_perm. by rewrite Hp.
Qed.

Lemma total_for_nonneg (xs : list (str * Z)) action :
  Forall (fun x => 0 <= x.2)%Z xs -> (0 <= total_for action xs)%Z.
Proof.
  induction 1 as [|x xs Hx _ IH]; simpl; [done|]. case_decide; lia.
Qed.

Lemma result_total stdin action total :
  (action, total) ∈ result stdin ->
  action ∈ (omap accepted stdin).*1 /\
  total = total_for action (omap accepted stdin).
Proof.
  rewrite result_perm. intros Hin.
  apply elem_of_list_to_map_1 in Hin; [|apply counts_of_NoDup].
  fold (table (counts_of stdin)) in Hin.
  rewrite table_counts_of, fold_table_add_lookup, lookup_empty in Hin.
  case_decide; [|done]. split; [done|].
  simpl in Hin. injection Hin as <-. unfold id. lia.
Qed.
End order_facts.

(** ** The aggregator *)

Section aggregator.
Import Reducer.
Implicit Types (stdin : list str) (line : str) (counts : list (str * Z)).

(** Scenarios 4 and 6 of the specification. *)
Example scenario_4 :
  (main [pair_line "A" "1"; pair_line "B" "2"; pair_line "A" "3"]).1
  = [pair_line "A" "4"; pair_line "B" "2"].
Proof. reflexivity. Qed.

Example scenario_6 :
  (main [pair_line "B" "1"; pair_line "A" "1"]).1
  = [pair_line "A" "1"; pair_line "B" "1"].
Proof. reflexivity. Qed.

(** Scenario 5: a line with a count that is no integer is reported and
    skipped, and the other lines are still counted. *)
Example scenario_5 :
  main [pair_line "A" "1"; pair_line "X" "foo"; pair_line "A" "2"]
  = ([pair_line "A" "3"],
     [skip_non_integer_count (lit "X" ++ [TAB] ++ lit "foo")]).
Proof. reflexivity. Qed.

(** C1. The entries are printed by total descending, ties by key
    ascending: of two entries, the earlier one has a total at least as
    large as the later one, and when the totals are equal its key is
    strictly smaller (code point by code point). *)
Theorem result_ranked stdin i j xi xj :
  (i < j)%nat ->
  result stdin !! i = Some xi -> result stdin !! j = Some xj ->
  (xj.2 <= xi.2)%Z /\ (xi.2 = xj.2 -> ltb xi.1 xj.1 = true).
Proof.
  intros Hij Hi Hj.
  pose proof (StronglySorted_lookup _ _ _ _ _ _
                (sorted_strongly (counts_of stdin)) Hij Hi Hj) as Hp.
  apply precedes_spec in Hp.
  assert (xi.1 <> xj.1) as Hne.
  { intros E. pose proof (result_NoDup stdin) as Hnd.
    assert (i = j); [|lia].
    eapply NoDup_lookup; [exact Hnd| |].
    - rewrite list_lookup_fmap, Hi. done.
    - rewrite list_lookup_fmap, Hj. simpl. by rewrite E. }
  destruct Hp as [?|[E Hji]]; split; try lia.
  intros _. destruct (ltb xi.1 xj.1) eqn:Hlt; [done|].
  destruct Hne. by apply ltb_total.
Qed.

Lemma result_ranked_witness :
  result [pair_line "B" "1"; pair_line "A" "1"; pair_line "C" "5"]
    !! 1%nat = Some (lit "A", 1%Z) /\
  ((1 <= 1)%Z /\ (1%Z = 1%Z -> ltb (lit "A") (lit "B") = true)).
Proof.
  split; [reflexivity|].
  apply (result_ranked
           [pair_line "B" "1"; pair_line "A" "1"; pair_line "C" "5"]
           1 2 (lit "A", 1%Z) (lit "B", 1%Z)); [lia|reflexivity..].
Defined.

(** C2. The order of the input lines does not matter: a permutation of
    the input gives the same entries in the same order, and so the same
    printed output. *)
Theorem result_permutation stdin stdin' :
  stdin ≡ₚ stdin' ->
  result stdin' = result stdin /\ (main stdin').1 = (main stdin).1.
Proof.
  intros Hp.
  assert (result stdin' = result stdin) as E.
  { apply sorted_of_perm, counts_of_perm. by symmetry. }
  by rewrite !main_stdout, E.
Qed.

Lemma result_permutation_witness :
  result [pair_line "A" "3"; pair_line "A" "1"; pair_line "B" "2"]
  = result [pair_line "A" "1"; pair_line "B" "2"; pair_line "A" "3"] /\
  (main [pair_line "A" "3"; pair_line "A" "1"; pair_line "B" "2"]).1
  = (main [pair_line "A" "1"; pair_line "B" "2"; pair_line "A" "3"]).1.
Proof.
  apply result_permutation. symmetry.
  apply (Permutation_cons_append [pair_line "A" "1"; pair_line "B" "2"]).
Defined.
(** C9, as the code has it.  A total starts at 0 and receives every count
    given for its key, so it is the sum of these counts; [int] accepts a
    sign, so a count may be negative.  When no line of the input carries a
    negative count, no total is negative. *)
Theorem result_total_sum stdin action total :
  (action, total) ∈ result stdin ->
  total = total_for action (omap accepted stdin) /\
  ((forall line x, line ∈ stdin -> accepted line = Some x -> (0 <= x.2)%Z) ->
   (0 <= total)%Z).
Proof.
  intros Hin. apply result_total in Hin as [_ ->]. split; [done|].
  intros Hpos. apply total_for_nonneg, Forall_forall.
  intros x (line & Hline & Hx)%list_elem_of_omap. eauto.
Qed.

Lemma result_total_sum_witness :
  (4%Z = total_for (lit "A")
           (omap accepted
              [pair_line "A" "1"; pair_line "B" "2"; pair_line "A" "3"])) /\
  (0 <= 4)%Z.
Proof.
  destruct (result_total_sum
              [pair_line "A" "1"; pair_line "B" "2"; pair_line "A" "3"]
              (lit "A") 4%Z) as [Hsum Hpos].
  - vm_compute. left.
  - split; [exact Hsum|]. apply Hpos.
    intros line x Hline Hx.
    repeat (apply elem_of_cons in Hline as [->|Hline];
            [vm_compute in Hx; injection Hx as <-; simpl; lia|]).
    by apply elem_of_nil in Hline.
Defined.

(** A count with a minus sign is accepted, and the total is negative. *)
Lemma negative_total :
  result [pair_line "A" "-5"] = [(lit "A", (-5)%Z)] /\
  (main [pair_line "A" "-5"]).1 = [pair_line "A" "-5"].
Proof. split; reflexivity. Qed.

(** C8, as the code has it.  The line is split at its first tab only.  A
    line without a tab is reported as malformed and skipped.  A line with
    one tab or more always gives two parts, the second one holding any
    further tab, and is never reported as malformed; it is reported with
    the non-integer diagnostic exactly when its key part is not empty after
    trimming and its value part, trimmed, is no integer.  A reported line
    leaves the table as it was. *)
Theorem body_diagnostics line counts :
  let l := rstrip [CR; LF] line in
  l <> [] ->
  (TAB ∉ l ->
   body line counts = (counts, Some (skip_malformed_line (take 80 l)))) /\
  (TAB ∈ l ->
   (exists p0 p1,
      split1 TAB l = [p0; p1] /\ l = p0 ++ TAB :: p1 /\ TAB ∉ p0) /\
   forall d, (body line counts).2 <> Some (skip_malformed_line d)) /\
  (forall d,
     (body line counts).2 = Some (skip_non_integer_count d) <->
     d = take 80 l /\
     exists p0 p1,
       split1 TAB l = [p0; p1] /\ strip p0 <> [] /\ int (strip p1) = None) /\
  (forall d, (body line counts).2 = Some d -> (body line counts).1 = counts).
Proof.
  intros l Hl. unfold body. fold l.
  rewrite (proj2 (is_empty_false l) Hl).
  split_and!.
  - intros Hno. by rewrite split1_no_sep.
  - intros (p0 & p1 & E & Hl' & Hp0)%split1_sep. split; [by eauto|].
    intros d. rewrite E. destruct (is_empty (strip p0)); [done|].
    by destruct (int (strip p1)).
  - intros d. destruct (split1 TAB l) as [|p0 [|p1 [|? ?]]] eqn:E;
      try (split; [done|by intros (_ & ? & ? & ? & _)]).
    destruct (is_empty (strip p0)) eqn:Hk.
    + apply is_empty_nil in Hk. split; [done|].
      intros (_ & ? & ? & ? & ? & _). by simplify_eq.
    + apply is_empty_false in Hk. destruct (int (strip p1)) eqn:Hv.
      * split; [done|]. intros (_ & ? & ? & ? & _ & ?). by simplify_eq.
      * simpl. split; [intros [= <-]; by eauto 6|by intros [-> _]].
  - intros d. destruct (split1 TAB l) as [|p0 [|p1 [|? ?]]]; try done.
    destruct (is_empty (strip p0)); [done|].
    by destruct (int (strip p1)).
Qed.

Lemma body_diagnostics_witness :
  body (lit "no tab here" ++ [LF]) []
  = ([], Some (skip_malformed_line (lit "no tab here"))).
Proof.
  refine (proj1 (body_diagnostics (lit "no tab here" ++ [LF]) [] _) _).
  - vm_compute. discriminate.
  - apply (bool_decide_unpack _). vm_compute. exact I.
Defined.

(** A line with two tabs is neither reported as malformed nor skipped: the
    text after the first tab is the value part.  Here its count is added;
    with [A TAB 1 TAB 2] the value is no integer, and the line is reported
    with the non-integer diagnostic. *)
Lemma two_tabs_not_malformed :
  length (split TAB (rstrip [CR; LF] line_tab_at_end)) = 3%nat /\
  body line_tab_at_end [] = ([(lit "A", 1%Z)], None) /\
  length (split TAB (rstrip [CR; LF] line_three_parts)) = 3%nat /\
  body line_three_parts []
  = ([], Some (skip_non_integer_count (lit "A" ++ [TAB] ++ lit "1" ++ [TAB]
                                         ++ lit "2"))).
Proof. repeat split. Qed.
End aggregator.

(** ** The JSON decoder: the recursion budget is never used up *)

Section json_facts.
Import Json.
Implicit Types (s t rest : str) (v : value).

Lemma lstrip_by_length (pr : char -> bool) s :
  (length (lstrip_by pr s) <= length s)%nat.
Proof.
  induction s as [|c s IH]; simpl; [done|]. destruct (pr c); simpl; lia.
Qed.

Lemma skip_whitespace_length s :
  (length (skip_whitespace s) <= length s)%nat.
Proof. apply lstrip_by_length. Qed.

Lemma push_Some c (r : option (str * str)) t rest :
  push c r = Some (t, rest) -> exists t', r = Some (t', rest).
Proof.
  destruct r as [[t' rest']|]; simpl; [|done]. intros [= <- <-]. eauto.
Qed.

Lemma scanstring_shorter s t rest :
  scanstring s = Some (t, rest) -> (length rest < length s)%nat.
Proof.
  remember (length s) as n eqn:Hn. revert s t rest Hn.
  induction n as [n IH] using lt_wf_ind. intros s t rest -> Hs.
  assert (forall s' c t', (length s' < length s)%nat ->
            push c (scanstring s') = Some (t', rest) ->
            (length rest < length s)%nat) as Hpush.
  { intros s' c t' Hlt (t'' & Hs')%push_Some.
    specialize (IH _ Hlt s' t'' rest eq_refl Hs'). lia. }
  destruct s as [|c r]; [done|]. cbn [scanstring] in Hs.
  repeat (case_match; simplify_eq; try done);
    try (simpl; lia);
    try (eapply Hpush; [|eassumption]; simpl; lia).
Qed.

Lemma after_prefix_length prefix s rest :
  after_prefix prefix s = Some rest ->
  length s = (length prefix + length rest)%nat.
Proof.
  revert s. induction prefix as [|p prefix IH]; intros s.
  - destruct s; simpl; by intros [= <-].
  - destruct s as [|c s]; simpl; [done|].
    destruct (p =? c); [|done]. intros H%IH. lia.
Qed.

Lemma constant_shorter name v' s v rest :
  name <> EmptyString ->
  constant name v' s = Some (v, rest) -> (length rest < length s)%nat.
Proof.
  unfold constant. intros Hname.
  destruct (after_prefix (lit name) s) as [rest'|] eqn:E; [|done].
  intros [= <- <-]. apply after_prefix_length in E.
  destruct name; [done|]. simpl in E. lia.
Qed.

Lemma digits_length s ds rest :
  digits s = (ds, rest) -> (length rest <= length s)%nat.
Proof.
  revert ds rest. induction s as [|c s IH]; intros ds rest; simpl.
  - intros [= <- <-]. done.
  - destruct (is_digit c); [|intros [= <- <-]; simpl; lia].
    destruct (digits s) as [ds' rest'] eqn:E. intros [= <- <-].
    specialize (IH _ _ eq_refl). lia.
Qed.

Lemma digits_cons_length c s ds rest :
  is_digit c = true -> digits (c :: s) = (ds, rest) ->
  (length rest <= length s)%nat.
Proof.
  simpl. intros ->. destruct (digits s) as [ds' rest'] eqn:E.
  intros [= <- <-]. by eapply digits_length.
Qed.

Lemma match_number_shorter s v rest :
  match_number s = Some (v, rest) -> (length rest < length s)%nat.
Proof.
  unfold match_number.
  destruct (match s with
            | [] => ([], [])
            | c :: r => if c =? ch "-" then ([c], r) else ([], s)
            end) as [sign s1] eqn:E1.
  assert (length s1 <= length s)%nat as H1.
  { destruct s as [|c r]; [by simplify_eq|].
    destruct (c =? ch "-"); simplify_eq; simpl; lia. }
  destruct s1 as [|c r]; [done|].
  destruct (is_digit c) eqn:Hd; [|done]. cbn [negb].
  destruct (if c =? ch "0" then ([c], r) else digits (c :: r))
    as [integer s2] eqn:E2.
  assert (length s2 <= length r)%nat as H2.
  { destruct (c =? ch "0"); [by simplify_eq|].
    by eapply digits_cons_length. }
  match goal with
  | |- match ?X with _ => _ end = _ -> _ =>
      remember X as fr eqn:E3; symmetry in E3; destruct fr as [frac s3]
  end.
  assert (length s3 <= length s2)%nat as H3.
  { repeat (case_match; simplify_eq; try done);
      repeat match goal with
        | H : digits _ = (_, _) |- _ => apply digits_length in H
        end; simpl in *; lia. }
  match goal with
  | |- match ?X with _ => _ end = _ -> _ =>
      remember X as ex eqn:E4; symmetry in E4; destruct ex as [exp s4]
  end.
  assert (length s4 <= length s3)%nat as H4.
  { repeat (case_match; simplify_eq; try done);
      repeat match goal with
        | H : digits _ = (_, _) |- _ => apply digits_length in H
        end; simpl in *; lia. }
  simpl in H1.
  destruct (is_empty frac && is_empty exp); intros [= <- <-]; lia.
Qed.

Lemma scan_atom_shorter s v rest :
  scan_atom s = Some (v, rest) -> (length rest < length s)%nat.
Proof.
  unfold scan_atom. destruct s as [|c r]; [done|]. destruct (c =? QUOTE).
  - destruct (scanstring r) as [[t rest']|] eqn:E; [|done].
    intros [= <- <-]. apply scanstring_shorter in E. simpl. lia.
  - repeat match goal with
      | |- match constant ?n ?w ?x with _ => _ end = _ -> _ =>
          destruct (constant n w x) as [[v' rest']|] eqn:?;
          [intros [= <- <-]; eapply constant_shorter; [|eassumption];
           discriminate|]
      end.
    apply match_number_shorter.
Qed.
(** With a budget of more than twice the length of the text, the three
    scanning functions never run out of it, and a value they read uses up
    at least one character. *)
Lemma scan_fuel fuel :
  (forall s, (2 * length s < fuel)%nat ->
     scan_once fuel s <> OutOfFuel /\
     forall v rest, scan_once fuel s = Ok v rest ->
                    (length rest < length s)%nat) /\
  (forall acc s, (2 * length s < fuel)%nat ->
     object_items fuel acc s <> OutOfFuel /\
     forall v rest, object_items fuel acc s = Ok v rest ->
                    (length rest < length s)%nat) /\
  (forall acc s, (2 * length s + 1 < fuel)%nat ->
     array_items fuel acc s <> OutOfFuel /\
     forall v rest, array_items fuel acc s = Ok v rest ->
                    (length rest < length s)%nat).
Proof.
  induction fuel as [|fuel (IHs & IHo & IHa)]; [split_and!; intros; lia|].
  split_and!.
  - intros [|c r] Hs; cbn [scan_once]; [done|].
    pose proof (skip_whitespace_length r) as Hw.
    destruct (c =? ch "{"); [|destruct (c =? ch "[")].
    + destruct (skip_whitespace r) as [|c' r']; [done|].
      destruct (c' =? ch "}").
      { split; [done|]. intros ? ? [= <- <-]. simpl in *. lia. }
      destruct (IHo [] (c' :: r')) as [H1 H2]; [simpl in *; lia|].
      split; [done|]. intros v rest Hr%H2. simpl in *. lia.
    + destruct (skip_whitespace r) as [|c' r']; [done|].
      destruct (c' =? ch "]").
      { split; [done|]. intros ? ? [= <- <-]. simpl in *. lia. }
      destruct (IHa [] (c' :: r')) as [H1 H2]; [simpl in *; lia|].
      split; [done|]. intros v rest Hr%H2. simpl in *. lia.
    + destruct (scan_atom (c :: r)) as [[v rest]|] eqn:E; [|done].
      split; [done|]. intros ? ? [= <- <-]. by apply scan_atom_shorter in E.
  - intros acc [|q r] Hs; cbn [object_items]; [done|].
    destruct (negb (q =? QUOTE)); [done|].
    destruct (scanstring r) as [[key s1]|] eqn:Ek; [|done].
    apply scanstring_shorter in Ek.
    pose proof (skip_whitespace_length s1) as Hw1.
    destruct (skip_whitespace s1) as [|colon s2]; [done|].
    destruct (negb (colon =? ch ":")); [done|].
    pose proof (skip_whitespace_length s2) as Hw2.
    destruct (IHs (skip_whitespace s2)) as [H1 H2]; [simpl in *; lia|].
    destruct (scan_once fuel (skip_whitespace s2)) as [v s3| |]; [|done..].
    specialize (H2 _ _ eq_refl).
    pose proof (skip_whitespace_length s3) as Hw3.
    destruct (skip_whitespace s3) as [|c s4]; [done|].
    destruct (c =? ch "}").
    { split; [done|]. intros ? ? [= <- <-]. simpl in *. lia. }
    destruct (c =? ch ","); [|done].
    pose proof (skip_whitespace_length s4) as Hw4.
    destruct (IHo (dict_set key v acc) (skip_whitespace s4)) as [H3 H4];
      [simpl in *; lia|].
    split; [done|]. intros v' rest Hr%H4. simpl in *. lia.
  - intros acc s Hs. cbn [array_items].
    destruct (IHs s) as [H1 H2]; [lia|].
    destruct (scan_once fuel s) as [v s1| |]; [|done..].
    specialize (H2 _ _ eq_refl).
    pose proof (skip_whitespace_length s1) as Hw1.
    destruct (skip_whitespace s1) as [|c s2]; [done|].
    destruct (c =? ch "]").
    { split; [done|]. intros ? ? [= <- <-]. simpl in *. lia. }
    destruct (c =? ch ","); [|done].
    pose proof (skip_whitespace_length s2) as Hw2.
    destruct (IHa (acc ++ [v]) (skip_whitespace s2)) as [H3 H4];
      [simpl in *; lia|].
    split; [done|]. intros v' rest Hr%H4. simpl in *. lia.
Qed.

(** [loads] never gives up for want of budget: where it answers [None],
    the text is not a JSON document. *)
Lemma loads_fuel s :
  scan_once (S (2 * length s)) (skip_whitespace s) <> OutOfFuel.
Proof.
  apply scan_fuel. pose proof (skip_whitespace_length s). lia.
Qed.
End json_facts.

(** ** The record parser *)

Section parser_facts.
Import Json Mapper.
Implicit Types (line f : str).

Lemma loads_empty : loads [] = None.
Proof. reflexivity. Qed.

(** The fallback sees the same fields with and without the terminator. *)
Lemma pipe_separated_rstrip line :
  pipe_separated (rstrip [CR; LF] line) = pipe_separated line.
Proof. unfold pipe_separated. by rewrite split_rstrip_line. Qed.





(** When the JSON attempt finds an action, it returns it. *)
Lemma parse_line_action line obj (s : str) :
  loads (rstrip [CR; LF] line) = Some (PyDict obj) ->
  truth (dict_get (lit "action") obj) = Some true ->
  str_of (dict_get (lit "action") obj) = Some s ->
  parse_line line = Return (Some (strip s)).
Proof.
  intros Hobj Ht Hs. unfold parse_line.
  destruct (rstrip [CR; LF] line) as [|c l] eqn:E.
  - by rewrite loads_empty in Hobj.
  - cbn [is_empty]. by rewrite Hobj, Ht, Hs.
Qed.

Lemma parse_line_empty line :
  rstrip [CR; LF] line = [] -> parse_line line = Return None.
Proof. unfold parse_line. by intros ->. Qed.

End parser_facts.

Section record_parser.
Import Json Mapper.
Implicit Types (line f s : str).

(** Scenarios 1 to 3 of the specification. *)
Example scenario_1 :
  body line_json_login
  = Some {| stdout := [pair_line "LOGIN" "1"]; stderr := [] |}.
Proof. reflexivity. Qed.

Example scenario_2 :
  body (lit "2024-01-01T00:00:00Z|INFO|u1|VIEW|Page viewed|120|1.2.3.4"
          ++ [LF])
  = Some {| stdout := [pair_line "VIEW" "1"]; stderr := [] |}.
Proof. reflexivity. Qed.

Example scenario_3 :
  body (lit "not json and no pipes" ++ [LF])
  = Some {| stdout := [];
            stderr := [lit "mapper: skip malformed line not json and no pipes"
                         ++ [LF; LF]] |}.
Proof. reflexivity. Qed.










(** C6.  The JSON attempt tests the action before it trims it: an action
    of white space only is returned as the empty key, where the fallback
    answers [None] for a blank field. *)
Theorem blank_action_empty_key :
  parse_line (action_line (quoted " ")) = Return (Some []) /\
  body (action_line (quoted " "))
    = Some {| stdout := [[TAB] ++ lit "1" ++ [LF]]; stderr := [] |} /\
  parse_line (lit "a|b|c| |e" ++ [LF]) = Return None.
Proof. repeat split. Qed.
End record_parser.

(** ** Lines that are skipped *)

Section skipped_lines.
Import Json.
Implicit Types (line s : str) (stdin : list str) (counts : list (str * Z)).

Lemma accepted_key line x : accepted line = Some x -> x.1 <> [].
Proof.
  unfold accepted.
  destruct (split1 TAB (rstrip [CR; LF] line)) as [|p0 [|p1 [|? ?]]]; try done.
  destruct (is_empty (strip p0)) eqn:Hk; [done|].
  destruct (int (strip p1)); [|done]. intros [= <-]. simpl.
  by apply is_empty_false.
Qed.

(** A line that contributes no pair may be left out of the input. *)
Lemma counts_of_skip line before after :
  accepted line = None ->
  Reducer.counts_of (before ++ line :: after)
  = Reducer.counts_of (before ++ after).
Proof.
  intros H. unfold Reducer.counts_of.
  rewrite !loop_accepted, !omap_app. simpl. by rewrite H.
Qed.

(** C7, as the code has it.  An empty line makes the mapper print nothing
    on the output stream; as for every line without a key, it prints the
    skip message on the diagnostic channel.  The reducer passes over an
    empty line without a message and without a change of the table. *)
Theorem empty_line_skipped line :
  rstrip [CR; LF] line = [] ->
  Mapper.body line
  = Some {| Mapper.stdout := [];
            Mapper.stderr := [lit "mapper: skip malformed line" ++ lit " "
                                ++ take 80 line ++ [LF]] |} /\
  forall counts, Reducer.body line counts = (counts, None).
Proof.
  intros He. split.
  - unfold Mapper.body. by rewrite parse_line_empty.
  - intros counts. unfold Reducer.body. by rewrite He.
Qed.

Lemma empty_line_skipped_witness :
  Mapper.body [CR; LF]
  = Some {| Mapper.stdout := [];
            Mapper.stderr := [lit "mapper: skip malformed line "
                                ++ [CR; LF; LF]] |} /\
  Reducer.body [CR; LF] [(lit "A", 1%Z)] = ([(lit "A", 1%Z)], None).
Proof.
  destruct (empty_line_skipped [CR; LF]) as [Hm Hr]; [reflexivity|].
  split; [exact Hm|apply Hr].
Defined.

(** The mapper does write to the diagnostic channel for an empty line. *)
Lemma empty_line_reported :
  Mapper.body [LF]
  = Some {| Mapper.stdout := [];
            Mapper.stderr := [lit "mapper: skip malformed line "
                                ++ [LF; LF]] |}.
Proof. reflexivity. Qed.

(** C10.  When the [action] of a JSON object is a non-empty string of white
    space only, the mapper prints the pair with the empty key.  The reducer
    passes over every line whose key part is empty after trimming, this
    pair among them, without a message and without a change of the table:
    the line may as well be absent from its input, and no entry of the
    result has the empty key. *)
Theorem blank_action_dropped line obj s :
  loads (rstrip [CR; LF] line) = Some (PyDict obj) ->
  dict_get (lit "action") obj = PyStr s ->
  s <> [] -> forallb isspace s = true ->
  Mapper.body line
  = Some {| Mapper.stdout := [[] ++ [TAB] ++ lit "1" ++ [LF]];
            Mapper.stderr := [] |} /\
  (forall l p0 p1 counts,
     split1 TAB (rstrip [CR; LF] l) = [p0; p1] -> strip p0 = [] ->
     Reducer.body l counts = (counts, None)) /\
  (forall counts,
     Reducer.body ([] ++ [TAB] ++ lit "1" ++ [LF]) counts = (counts, None)) /\
  (forall before after,
     Reducer.result (before ++ ([] ++ [TAB] ++ lit "1" ++ [LF]) :: after)
     = Reducer.result (before ++ after)) /\
  (forall stdin total, ([], total) ∉ Reducer.result stdin).
Proof.
  intros Hobj Ha Hne Hsp. split_and!.
  - unfold Mapper.body.
    rewrite (parse_line_action line obj s Hobj).
    + by rewrite strip_all_space.
    + rewrite Ha. simpl. by rewrite (proj2 (is_empty_false s) Hne).
    + by rewrite Ha.
  - intros l p0 p1 counts Hsplit Hk. unfold Reducer.body.
    destruct (rstrip [CR; LF] l) as [|c r]; [done|].
    cbn [is_empty]. by rewrite Hsplit, Hk.
  - done.
  - intros before after. unfold Reducer.result.
    by rewrite counts_of_skip.
  - intros stdin total [Hin _]%result_total.
    apply list_elem_of_fmap in Hin as ([k n] & Hk & Hx). simpl in Hk.
    apply list_elem_of_omap in Hx as (l & _ & Hl).
    apply accepted_key in Hl. simpl in Hl. congruence.
Qed.

Lemma blank_action_dropped_witness :
  Mapper.body (action_line (quoted "  "))
  = Some {| Mapper.stdout := [[TAB] ++ lit "1" ++ [LF]];
            Mapper.stderr := [] |} /\
  Reducer.result [pair_line "A" "1"; [TAB] ++ lit "1" ++ [LF]]
  = Reducer.result [pair_line "A" "1"].
Proof.
  destruct (blank_action_dropped (action_line (quoted "  "))
              [(lit "action", PyStr (lit "  "))] (lit "  "))
    as (Hm & _ & _ & Hr & _).
  - reflexivity.
  - reflexivity.
  - discriminate.
  - reflexivity.
  - split; [exact Hm|]. exact (Hr [pair_line "A" "1"] []).
Defined.
End skipped_lines.

(** ** Integers and their decimal text *)

Section int_facts.
Implicit Types (s t : str) (c : char) (pr : char -> bool) (n acc : Z).

Lemma lstrip_by_id pr s :
  match s with [] => True | c :: _ => pr c = false end -> lstrip_by pr s = s.
Proof. destruct s as [|c s]; simpl; [done|]. by intros ->. Qed.

Lemma rstrip_by_id pr s : forallb (fun c => negb (pr c)) s = true ->
  rstrip_by pr s = s.
Proof.
  induction s as [|c s IH]; simpl; [done|].
  intros [Hc Hs]%andb_prop. rewrite IH by done.
  destruct s; [|done]. by destruct (pr c).
Qed.

(** Only the last character matters to [rstrip]. *)
Lemma rstrip_by_last pr s c : pr c = false -> rstrip_by pr (s ++ [c]) = s ++ [c].
Proof.
  intros Hc. induction s as [|d s IH]; simpl; [by rewrite Hc|].
  rewrite IH. by destruct s.
Qed.

Lemma uint_chars_string d :
  lit (NilEmpty.string_of_uint d) = uint_chars d.
Proof. induction d; simpl; [done|by rewrite <- IHd..]. Qed.

Lemma uint_chars_digits d :
  forallb (fun c => (48 <=? c) && (c <=? 57)) (uint_chars d) = true.
Proof. induction d; simpl; done. Qed.

Lemma uint_val_acc d (p : positive) :
  uint_val (Z.pos p) d = Z.pos (Pos.of_uint_acc d p).
Proof.
  revert p. induction d; intros p; simpl; [done|..];
    rewrite <- IHd; f_equal; lia.
Qed.

Lemma uint_val_of_uint d : uint_val 0 d = Z.of_N (Pos.of_uint d).
Proof.
  induction d; simpl; [done|done|..]; by rewrite <- uint_val_acc.
Qed.

Lemma digit_decimal_value c :
  (48 <=? c) && (c <=? 57) = true ->
  decimal_value c = Some (Z.of_N (c - 48)) /\ (c =? UNDERSCORE) = false.
Proof.
  intros [H1%N.leb_le H2%N.leb_le]%andb_prop.
  assert (c = 48 \/ c = 49 \/ c = 50 \/ c = 51 \/ c = 52 \/ c = 53
          \/ c = 54 \/ c = 55 \/ c = 56 \/ c = 57) as Hc by lia.
  destruct Hc as [->|[->|[->|[->|[->|[->|[->|[->|[->| ->]]]]]]]]]; done.
Qed.

(** Reading the digits back gives their value. *)
Lemma int_digits_uint d acc :
  int_digits acc (uint_chars d) = Some (uint_val acc d).
Proof.
  revert acc. induction d; intros acc; [done|..]; simpl uint_chars;
    cbn [int_digits uint_val];
    match goal with
    | |- context [decimal_value ?c] =>
        destruct (digit_decimal_value c eq_refl) as [-> ->]
    end; apply IHd.
Qed.
Lemma digit_plain c :
  (48 <=? c) && (c <=? 57) = true ->
  isspace c = false /\ int_isspace c = false /\ isdecimal c = true /\
  (c =? MINUS) = false /\ (c =? PLUS) = false /\
  char_in [CR; LF] c = false /\ c <> TAB.
Proof.
  intros [H1%N.leb_le H2%N.leb_le]%andb_prop.
  assert (c = 48 \/ c = 49 \/ c = 50 \/ c = 51 \/ c = 52 \/ c = 53
          \/ c = 54 \/ c = 55 \/ c = 56 \/ c = 57) as Hc by lia.
  destruct Hc as [->|[->|[->|[->|[->|[->|[->|[->|[->| ->]]]]]]]]]; done.
Qed.

Lemma forallb_digits_weaken (f : char -> bool) s :
  (forall c, (48 <=? c) && (c <=? 57) = true -> f c = true) ->
  forallb (fun c => (48 <=? c) && (c <=? 57)) s = true ->
  forallb f s = true.
Proof.
  intros Hf. induction s as [|c s IH]; simpl; [done|].
  intros [Hc Hs]%andb_prop. by rewrite (Hf c Hc), IH.
Qed.

Lemma uint_chars_nonnil d : d <> Decimal.Nil -> uint_chars d <> [].
Proof. by destruct d. Qed.

(** The text [str] gives for an integer: digits, after a minus sign for a
    negative one. *)
Lemma str_of_int_chars n :
  exists d, d <> Decimal.Nil /\ uint_val 0 d = Z.abs n /\
    str_of_int n = (if (n <? 0)%Z then [MINUS] else []) ++ uint_chars d.
Proof.
  destruct n as [|p|p].
  - by exists (Decimal.D0 Decimal.Nil).
  - exists (Pos.to_uint p). pose proof (DecimalPos.Unsigned.to_uint_nonnil p).
    split_and!; [done| |].
    + by rewrite uint_val_of_uint, DecimalPos.Unsigned.of_to.
    + unfold str_of_int. simpl. rewrite <- uint_chars_string.
      by destruct (Pos.to_uint p).
  - exists (Pos.to_uint p). pose proof (DecimalPos.Unsigned.to_uint_nonnil p).
    split_and!; [done| |].
    + by rewrite uint_val_of_uint, DecimalPos.Unsigned.of_to.
    + unfold str_of_int. simpl. rewrite <- uint_chars_string.
      by destruct (Pos.to_uint p).
Qed.

Lemma int_uint_chars d (negative : bool) :
  d <> Decimal.Nil ->
  int ((if negative then [MINUS] else []) ++ uint_chars d)
  = Some (if negative then (- uint_val 0 d)%Z else uint_val 0 d).
Proof.
  intros Hd. pose proof (uint_chars_digits d) as Hds.
  pose proof (uint_chars_nonnil d Hd) as Hne.
  assert (forallb (fun c => negb (int_isspace c)) (uint_chars d) = true) as Hsp.
  { eapply forallb_digits_weaken; [|done].
    intros c (_ & -> & _)%digit_plain. done. }
  pose proof (int_digits_uint d 0) as Hv.
  unfold int. destruct (uint_chars d) as [|c cs] eqn:E; [done|].
  cbn [forallb] in Hds. apply andb_prop in Hds as [Hc _].
  destruct (digit_plain c Hc) as (_ & Hi & Hdec & Hm & Hp & _).
  destruct negative.
  - rewrite lstrip_by_id by done.
    rewrite (rstrip_by_id int_isspace ([MINUS] ++ c :: cs)) by done.
    cbn [app]. rewrite N.eqb_refl, Hdec, Hv. done.
  - rewrite lstrip_by_id by (simpl; done).
    rewrite (rstrip_by_id int_isspace ([] ++ c :: cs)) by done.
    cbn [app]. rewrite Hm, Hp, Hdec, Hv. done.
Qed.

(** [int(str(n)) == n]: the reducer reads back the totals it prints. *)
Lemma int_str_of_int n : int (str_of_int n) = Some n.
Proof.
  destruct (str_of_int_chars n) as (d & Hd & Hv & ->).
  rewrite int_uint_chars, Hv by done. f_equal.
  destruct (Z.ltb_spec n 0); lia.
Qed.
End int_facts.

(** ** More on the reducer *)

Section reducer_keys.
Import Reducer.
Implicit Types (s t k : str) (c : char) (pr : char -> bool).
Implicit Types (line : str) (stdin : list str) (counts xs : list (str * Z)).

Lemma lstrip_by_elem pr s c : c ∈ lstrip_by pr s -> c ∈ s.
Proof.
  induction s as [|d s IH]; simpl; [done|].
  destruct (pr d); [|done]. intros H%IH. by right.
Qed.

Lemma rstrip_by_elem pr s c : c ∈ rstrip_by pr s -> c ∈ s.
Proof.
  destruct (rstrip_by_split pr s) as (t & E & _). intros H.
  rewrite E. apply elem_of_app. by left.
Qed.

Lemma strip_elem s c : c ∈ strip s -> c ∈ s.
Proof. intros H%rstrip_by_elem. by eapply lstrip_by_elem. Qed.

Lemma accepted_parts line x :
  accepted line = Some x ->
  exists p0 p1,
    split1 TAB (rstrip [CR; LF] line) = [p0; p1] /\
    x.1 = strip p0 /\ x.1 <> [] /\ int (strip p1) = Some x.2.
Proof.
  unfold accepted.
  destruct (split1 TAB (rstrip [CR; LF] line)) as [|p0 [|p1 [|? ?]]]; try done.
  destruct (is_empty (strip p0)) eqn:Hk; [done|].
  destruct (int (strip p1)) as [n|] eqn:Hn; [|done]. intros [= <-].
  exists p0, p1. split_and!; try done. by apply is_empty_false.
Qed.

Lemma split1_two sep s p0 p1 :
  split1 sep s = [p0; p1] -> s = p0 ++ sep :: p1 /\ sep ∉ p0.
Proof.
  intros E. destruct (decide (sep ∈ s)) as [Hin|Hout].
  - destruct (split1_sep sep s Hin) as (q0 & q1 & E' & Hs & Hq).
    rewrite E in E'. by simplify_eq.
  - rewrite split1_no_sep in E by done. done.
Qed.

(** Every key the reducer takes from a line is not empty, trimmed, and
    free of tabs. *)
Lemma accepted_stored_key line x : accepted line = Some x -> stored_key x.1.
Proof.
  intros (p0 & p1 & E & -> & Hne & _)%accepted_parts.
  split_and!; [done|apply strip_idemp|].
  intros H%strip_elem. by apply split1_two in E as [_ ?].
Qed.

Lemma stream_line_rstrip line text :
  LF ∉ text -> CR ∉ text -> line = text \/ line = text ++ [LF] ->
  rstrip [CR; LF] line = text.
Proof.
  intros HLF HCR Hl. unfold rstrip.
  assert (rstrip_by (char_in [CR; LF]) text = text) as Ht.
  { apply rstrip_by_id, forallb_forall. intros c Hc%list_elem_of_In.
    destruct (char_in [CR; LF] c) eqn:E; [|done].
    apply char_in_spec in E. set_solver. }
  destruct Hl as [->| ->]; [done|].
  by rewrite rstrip_by_app_all.
Qed.


Lemma split1_app sep k rest : sep ∉ k -> split1 sep (k ++ sep :: rest) = [k; rest].
Proof.
  induction k as [|c k IH]; simpl; intros Hk.
  - by rewrite N.eqb_refl.
  - destruct (N.eqb_spec c sep) as [->|_]; [set_solver|].
    rewrite IH by set_solver. done.
Qed.

Lemma str_of_int_plain n :
  str_of_int n <> [] /\
  forallb (fun c => negb (isspace c)) (str_of_int n) = true /\
  forallb (fun c => negb (char_in [CR; LF] c)) (str_of_int n) = true /\
  TAB ∉ str_of_int n.
Proof.
  destruct (str_of_int_chars n) as (d & Hd & _ & ->).
  pose proof (uint_chars_nonnil d Hd) as Hnil.
  pose proof (uint_chars_digits d) as Hds.
  split_and!.
  - by destruct (n <? 0)%Z, (uint_chars d).
  - rewrite forallb_app. apply andb_true_intro. split.
    + by destruct (n <? 0)%Z.
    + eapply forallb_digits_weaken; [|done].
      intros c (-> & _)%digit_plain. done.
  - rewrite forallb_app. apply andb_true_intro. split.
    + by destruct (n <? 0)%Z.
    + eapply forallb_digits_weaken; [|done].
      intros c (_ & _ & _ & _ & _ & -> & _)%digit_plain. done.
  - intros [H|H]%elem_of_app.
    + destruct (n <? 0)%Z; set_solver.
    + rewrite forallb_forall in Hds. apply list_elem_of_In, Hds in H. done.
Qed.

Lemma strip_id s :
  forallb (fun c => negb (isspace c)) s = true -> strip s = s.
Proof.
  intros H. unfold strip. rewrite lstrip_by_id.
  - by apply rstrip_by_id.
  - destruct s as [|c s]; [done|]. simpl in H.
    apply andb_prop in H as [Hc _]. by destruct (isspace c).
Qed.

(** The reducer reads back what it prints: a printed entry is accepted as
    the same key and total. *)
Lemma accepted_print_entry k n :
  stored_key k -> accepted (print_entry (k, n)) = Some (k, n).
Proof.
  intros (Hne & Hstrip & Htab).
  destruct (str_of_int_plain n) as (Hn & Hsp & Hbr & _).
  unfold accepted, print_entry. cbn [fst snd].
  assert (rstrip [CR; LF] (k ++ [TAB] ++ str_of_int n ++ [LF])
          = k ++ TAB :: str_of_int n) as ->.
  { unfold rstrip.
    replace (k ++ [TAB] ++ str_of_int n ++ [LF])
      with ((k ++ TAB :: str_of_int n) ++ [LF])
      by (by rewrite <- !app_assoc).
    rewrite rstrip_by_app_all by done.
    destruct (str_of_int n) as [|c cs] using rev_ind; [done|].
    rewrite forallb_app in Hbr. apply andb_prop in Hbr as [_ Hc].
    cbn [forallb] in Hc. rewrite andb_true_r in Hc.
    replace (k ++ TAB :: cs ++ [c]) with ((k ++ TAB :: cs) ++ [c])
      by (by rewrite <- app_assoc).
    apply rstrip_by_last. by apply negb_true_iff. }
  rewrite split1_app, Hstrip by done.
  rewrite (proj2 (is_empty_false k) Hne), strip_id, int_str_of_int by done.
  done.
Qed.
End reducer_keys.

Section reducer_more.
Import Reducer.
Implicit Types (s t k : str) (c : char).
Implicit Types (line : str) (stdin : list str) (counts xs ys : list (str * Z)).

Lemma body_diagnostic line counts : (body line counts).2 = diagnostic_of line.
Proof.
  unfold diagnostic_of, body.
  destruct (is_empty (rstrip [CR; LF] line)); [done|].
  destruct (split1 TAB (rstrip [CR; LF] line)) as [|p0 [|p1 [|? ?]]]; try done.
  destruct (is_empty (strip p0)); [done|]. by destruct (int (strip p1)).
Qed.

Lemma loop_stderr stdin counts :
  (loop stdin counts).2 = omap diagnostic_of stdin.
Proof.
  revert counts. induction stdin as [|line stdin IH]; intros counts; [done|].
  cbn [loop omap list_omap]. pose proof (body_diagnostic line counts) as Hd.
  destruct (body line counts) as [counts' d]. simpl in Hd. subst d.
  specialize (IH counts'). destruct (loop stdin counts') as [final ds].
  simpl in *. subst ds. by destruct (diagnostic_of line).
Qed.

Lemma main_eq stdin :
  main stdin = (print_entry <$> result stdin, omap diagnostic_of stdin).
Proof.
  unfold main, result, counts_of. rewrite <- (loop_stderr stdin []).
  by destruct (loop stdin []).
Qed.

(** A line is counted or reported, never both; the text shown is the start
    of the line, without its terminator. *)
Lemma diagnostic_of_spec line d :
  diagnostic_of line = Some d ->
  accepted line = None /\ preview d = take 80 (rstrip [CR; LF] line).
Proof.
  unfold diagnostic_of, body, accepted.
  destruct (is_empty (rstrip [CR; LF] line)); [done|].
  destruct (split1 TAB (rstrip [CR; LF] line)) as [|p0 [|p1 [|? ?]]];
    try (by intros [= <-]).
  destruct (is_empty (strip p0)); [done|].
  destruct (int (strip p1)); [done|]. by intros [= <-].
Qed.

Lemma add_fresh k n counts :
  k ∉ counts.*1 -> add k n counts = counts ++ [(k, n)].
Proof.
  induction counts as [|[k' v] counts IH]; [done|].
  rewrite fmap_cons, not_elem_of_cons. intros [Hne Hk]. cbn [add fst].
  rewrite decide_False by done. by rewrite IH.
Qed.

Lemma fold_add_fresh xs counts :
  NoDup (counts.*1 ++ xs.*1) ->
  foldl (fun cs x => add x.1 x.2 cs) counts xs = counts ++ xs.
Proof.
  revert counts. induction xs as [|[k n] xs IH]; intros counts Hnd.
  - by rewrite app_nil_r.
  - cbn [foldl fst snd]. rewrite fmap_cons in Hnd. cbn [fst] in Hnd.
    rewrite add_fresh.
    + rewrite IH; [by rewrite <- app_assoc|].
      rewrite fmap_app, <- app_assoc. done.
    + apply NoDup_app in Hnd as (_ & Hnd & _). intros Hk.
      apply (Hnd k Hk). by left.
Qed.



Lemma result_key_iff stdin k :
  k ∈ (result stdin).*1 <-> k ∈ (omap accepted stdin).*1.
Proof.
  rewrite result_perm. split.
  - intros ([k' n] & -> & Hin)%list_elem_of_fmap. rewrite <- result_perm in Hin.
    by apply result_total in Hin as [? _].
  - intros Hin. destruct (decide (k ∈ (counts_of stdin).*1)) as [|Hout]; [done|].
    apply not_elem_of_list_to_map in Hout.
    fold (table (counts_of stdin)) in Hout.
    rewrite table_counts_of, fold_table_add_lookup in Hout.
    by rewrite decide_True in Hout.
Qed.



Lemma result_stored_keys stdin : Forall stored_key (result stdin).*1.
Proof.
  apply Forall_forall. intros k Hk%result_key_iff.
  apply list_elem_of_fmap in Hk as (x & -> & Hx).
  apply list_elem_of_omap in Hx as (line & _ & Hl).
  by eapply accepted_stored_key.
Qed.

End reducer_more.

Section reducer_extras.
Import Reducer.
Implicit Types (k : str) (line : str) (stdin : list str).
Implicit Types (parts : list (list str)) (xs : list (str * Z)).

(** X1. The result has exactly one entry for every key that some line of the
    input gives a count for, also when the counts add up to zero, and none
    for any other key; every key is stored trimmed, is not empty and holds
    no tab. *)
Theorem result_keys stdin :
  NoDup (result stdin).*1 /\
  Forall stored_key (result stdin).*1 /\
  forall k, k ∈ (result stdin).*1 <->
            exists line n, line ∈ stdin /\ accepted line = Some (k, n).
Proof.
  split_and!; [apply result_NoDup|apply result_stored_keys|].
  intros k. rewrite result_key_iff. split.
  - intros ([k' n] & -> & Hx)%list_elem_of_fmap.
    apply list_elem_of_omap in Hx as (line & Hl & Ha). eauto.
  - intros (line & n & Hl & Ha). apply list_elem_of_fmap.
    exists (k, n). split; [done|]. apply list_elem_of_omap. eauto.
Qed.









(** X5. The diagnostics come in the order of the lines, one for each line that
    is reported, whatever the table holds at that point. *)
Theorem main_stderr stdin :
  (main stdin).2 = omap diagnostic_of stdin /\
  (length (main stdin).2 <= length stdin)%nat.
Proof.
  rewrite main_eq. split; [done|]. cbn [snd].
  induction stdin as [|line stdin IH]; [done|].
  cbn [omap list_omap length]. destruct (diagnostic_of line);
    cbn [length]; lia.
Qed.

(** X6. Every diagnostic shows at most 80 characters, the start of a line of
    the input without its terminator; that line has added nothing to any
    total. *)
Theorem diagnostic_preview stdin d :
  d ∈ (main stdin).2 ->
  (length (preview d) <= 80)%nat /\
  exists line,
    line ∈ stdin /\ accepted line = None /\
    preview d = take 80 (rstrip [CR; LF] line).
Proof.
  rewrite main_eq. intros (line & Hl & Hd)%list_elem_of_omap.
  apply diagnostic_of_spec in Hd as [Ha Hp]. split; [|by eauto].
  rewrite Hp, length_take. lia.
Qed.

Lemma diagnostic_preview_witness :
  (length (lit "X" ++ [TAB] ++ lit "foo") <= 80)%nat /\
  exists line,
    line ∈ [pair_line "A" "1"; pair_line "X" "foo"] /\
    accepted line = None /\
    lit "X" ++ [TAB] ++ lit "foo" = take 80 (rstrip [CR; LF] line).
Proof.
  apply (diagnostic_preview [pair_line "A" "1"; pair_line "X" "foo"]
           (skip_non_integer_count (lit "X" ++ [TAB] ++ lit "foo"))).
  vm_compute. left.
Defined.

Lemma body_rstrip line counts :
  body (rstrip [CR; LF] line) counts = body line counts.
Proof. unfold body, rstrip. by rewrite rstrip_by_idemp. Qed.

Lemma loop_rstrip stdin counts :
  loop (rstrip [CR; LF] <$> stdin) counts = loop stdin counts.
Proof.
  revert counts. induction stdin as [|line stdin IH]; intros counts; [done|].
  cbn [fmap list_fmap loop]. rewrite body_rstrip.
  destruct (body line counts) as [counts' d]. by rewrite IH.
Qed.

(** X7. The line terminators do not matter: two inputs whose lines agree up to
    trailing carriage returns and line feeds give the same output and the
    same diagnostics. *)
Theorem main_terminators stdin stdin' :
  rstrip [CR; LF] <$> stdin = rstrip [CR; LF] <$> stdin' ->
  main stdin = main stdin'.
Proof.
  intros H. unfold main.
  by rewrite <- (loop_rstrip stdin), <- (loop_rstrip stdin'), H.
Qed.

Lemma main_terminators_witness :
  main [lit "A" ++ [TAB] ++ lit "1" ++ [CR; LF]; lit "no tab" ++ [CR; LF]]
  = main [lit "A" ++ [TAB] ++ lit "1" ++ [LF]; lit "no tab"].
Proof. apply main_terminators. reflexivity. Defined.


End reducer_extras.

(** ** More on the mapper *)

Section mapper_extras.
Import Json Mapper.
Implicit Types (k f s : str) (line : str) (stdin : list str) (o : output).

Lemma split_parts_no_sep sep s f : f ∈ split sep s -> sep ∉ f.
Proof.
  revert f. induction s as [|c s IH]; intros f; simpl.
  - intros ->%list_elem_of_singleton. by intros ?%elem_of_nil.
  - destruct (N.eqb_spec c sep) as [->|Hne].
    + intros [->|Hf]%elem_of_cons; [by intros ?%elem_of_nil|by apply IH].
    + pose proof (split_not_nil sep s) as Hnil.
      destruct (split sep s) as [|g gs]; [done|].
      intros [->|Hf]%elem_of_cons.
      * intros [->|Hg]%elem_of_cons; [done|]. revert Hg. apply IH. by left.
      * apply IH. by right.
Qed.

Lemma pipe_separated_spec line k :
  pipe_separated line = Some k ->
  exists f, split PIPE line !! ACTION_INDEX = Some f /\ k = strip f /\ k <> [].
Proof.
  unfold pipe_separated. case_decide as Hlen; [done|].
  rewrite length_fmap in Hlen.
  destruct (split PIPE line !! ACTION_INDEX) as [f|] eqn:Hf.
  - rewrite list_lookup_fmap, Hf. simpl. rewrite strip_idemp.
    destruct (is_empty (strip f)) eqn:He; [done|]. intros [= <-].
    exists f. split_and!; try done. by apply is_empty_false.
  - apply lookup_ge_None in Hf. lia.
Qed.

Lemma parse_line_cases line k :
  parse_line line = Return (Some k) ->
  (exists obj s,
     loads (rstrip [CR; LF] line) = Some (PyDict obj) /\
     truth (dict_get (lit "action") obj) = Some true /\
     str_of (dict_get (lit "action") obj) = Some s /\ k = strip s) \/
  (json_declines (rstrip [CR; LF] line) /\ pipe_separated line = Some k).
Proof.
  unfold parse_line, json_declines. rewrite pipe_separated_rstrip.
  destruct (is_empty (rstrip [CR; LF] line)); [done|].
  destruct (loads (rstrip [CR; LF] line)) as [[| | | | | |obj]|];
    try (intros [= ->]; by right).
  destruct (truth (dict_get (lit "action") obj)) as [[]|] eqn:Ht; [| |done].
  - destruct (str_of (dict_get (lit "action") obj)) as [s|] eqn:Hs; [|done].
    intros [= <-]. left. by exists obj, s.
  - intros [= ->]. by right.
Qed.

Lemma parse_line_strip line k :
  parse_line line = Return (Some k) -> strip k = k.
Proof.
  intros [(obj & s & _ & _ & _ & ->)|[_ (f & _ & -> & _)%pipe_separated_spec]]
    %parse_line_cases; apply strip_idemp.
Qed.

(** X9. Every key that [parse_line] returns is trimmed. *)
Theorem parse_line_trimmed line k :
  parse_line line = Return (Some k) -> strip k = k.
Proof. apply parse_line_strip. Qed.

Lemma parse_line_trimmed_witness : strip (lit "VIEW") = lit "VIEW".
Proof.
  apply (parse_line_trimmed (lit "t|INFO|u1|  VIEW  |m|120|ip" ++ [LF])).
  reflexivity.
Defined.

(** X10. A key found by the pipe-separated fallback is the 4th field of the
    line, trimmed; it is never empty and holds no pipe. *)
Theorem parse_line_fallback_key line k :
  json_declines (rstrip [CR; LF] line) ->
  parse_line line = Return (Some k) ->
  k <> [] /\ (PIPE ∉ k) /\
  exists f, split PIPE line !! ACTION_INDEX = Some f /\ k = strip f.
Proof.
  intros Hj [(obj & s & Hobj & Ht & _)|[_ Hp]]%parse_line_cases.
  - unfold json_declines in Hj. rewrite Hobj in Hj. congruence.
  - apply pipe_separated_spec in Hp as (f & Hf & -> & Hne).
    split_and!; [done| |by eauto].
    intros H%strip_elem. revert H. apply (split_parts_no_sep PIPE line).
    by eapply list_elem_of_lookup_2.
Qed.

Lemma parse_line_fallback_key_witness :
  lit "VIEW" <> [] /\ (PIPE ∉ lit "VIEW") /\
  exists f, split PIPE (lit "t|INFO|u1|  VIEW  |m|120|ip" ++ [LF])
              !! ACTION_INDEX = Some f /\ lit "VIEW" = strip f.
Proof.
  apply (parse_line_fallback_key (lit "t|INFO|u1|  VIEW  |m|120|ip" ++ [LF])).
  - vm_compute. exact I.
  - reflexivity.
Defined.

Lemma parse_line_rstrip line :
  parse_line (rstrip [CR; LF] line) = parse_line line.
Proof. unfold parse_line, rstrip. by rewrite rstrip_by_idemp. Qed.

(** X11. The key of a line does not depend on its terminator: lines that agree
    up to trailing carriage returns and line feeds have the same key. *)
Theorem parse_line_terminator line line' :
  rstrip [CR; LF] line = rstrip [CR; LF] line' ->
  parse_line line = parse_line line'.
Proof.
  intros H. by rewrite <- (parse_line_rstrip line), H, parse_line_rstrip.
Qed.

Lemma parse_line_terminator_witness :
  parse_line (line_json_login ++ [CR; LF; LF])
  = parse_line (lit "{" ++ quoted "action" ++ lit ":" ++ quoted "LOGIN"
                  ++ lit "}").
Proof. apply parse_line_terminator. reflexivity. Defined.




End mapper_extras.

(** ** The mapper feeding the reducer *)

Section pipeline.
Implicit Types (k : str) (keys : list str) (line : str) (stdin : list str).


Lemma accepted_emitted k :
  strip k = k -> TAB ∉ k ->
  accepted (emitted k) = if decide (k = []) then None else Some (k, 1%Z).
Proof.
  intros Hs Ht. case_decide as Hk; [by subst|].
  by apply (accepted_print_entry k 1).
Qed.

Lemma diagnostic_emitted k :
  strip k = k -> TAB ∉ k -> diagnostic_of (emitted k) = None.
Proof.
  intros Hs Ht. destruct (decide (k = [])) as [->|Hk]; [done|].
  destruct (diagnostic_of (emitted k)) as [d|] eqn:Hd; [|done].
  apply diagnostic_of_spec in Hd as [Hd _].
  rewrite accepted_emitted, decide_False in Hd by done. done.
Qed.

Lemma omap_accepted_emitted keys :
  Forall (fun k => strip k = k /\ TAB ∉ k) keys ->
  omap accepted (emitted <$> keys)
  = (fun k => (k, 1%Z)) <$> filter (fun k => k <> []) keys.
Proof.
  induction 1 as [|k keys [Hs Ht] _ IH]; [done|].
  rewrite fmap_cons, filter_cons. cbn [omap list_omap].
  rewrite accepted_emitted, IH by done.
  destruct (decide (k = [])) as [->|Hk].
  - by rewrite decide_False by (by intros []).
  - by rewrite decide_True.
Qed.

Lemma total_for_ones k keys :
  k <> [] ->
  total_for k ((fun k' => (k', 1%Z)) <$> filter (fun k' => k' <> []) keys)
  = occurrences k keys.
Proof.
  intros Hk. unfold occurrences.
  induction keys as [|k' keys IH]; [done|].
  rewrite !filter_cons.
  destruct (decide (k' = k)) as [->|Hne].
  - rewrite decide_True by done. rewrite fmap_cons.
    cbn [total_for foldr fst snd length].
    fold (total_for k ((fun k' => (k', 1%Z))
                         <$> filter (fun k' => k' <> []) keys)).
    rewrite decide_True by done. rewrite IH. lia.
  - case_decide; [|done]. rewrite fmap_cons.
    cbn [total_for foldr fst snd].
    fold (total_for k ((fun k' => (k', 1%Z))
                         <$> filter (fun k' => k' <> []) keys)).
    by rewrite decide_False.
Qed.

(** The reducer on the pairs the mapper prints for a list of keys. *)
Lemma reduce_emitted keys :
  Forall (fun k => strip k = k /\ TAB ∉ k) keys ->
  (Reducer.main (emitted <$> keys)).2 = [] /\
  forall k n,
    (k, n) ∈ Reducer.result (emitted <$> keys) <->
    k <> [] /\ k ∈ keys /\ n = occurrences k keys.
Proof.
  intros Hkeys. split.
  - rewrite main_eq. simpl.
    induction Hkeys as [|k keys [Hs Ht] _ IH]; [done|].
    rewrite fmap_cons. cbn [omap list_omap].
    by rewrite diagnostic_emitted.
  - intros k n. split.
    + intros Hin. apply result_total in Hin as [Hk ->].
      rewrite omap_accepted_emitted in * by done.
      rewrite <- list_fmap_compose in Hk. simpl in Hk.
      rewrite list_fmap_id in Hk. apply list_elem_of_filter in Hk as [Hne Hk].
      split_and!; [done..|]. by apply total_for_ones.
    + intros (Hne & Hk & ->).
      assert (k ∈ (Reducer.result (emitted <$> keys)).*1) as Hr.
      { apply result_key_iff. rewrite omap_accepted_emitted by done.
        rewrite <- list_fmap_compose. simpl. rewrite list_fmap_id.
        by apply list_elem_of_filter. }
      apply list_elem_of_fmap in Hr as ([k' n] & -> & Hin).
      pose proof Hin as [_ ->]%result_total. simpl in *.
      by rewrite omap_accepted_emitted, total_for_ones in Hin.
Qed.


End pipeline.

(** ** Strings through [json.dumps] and [json.loads] *)

Section json_strings.
Import Json JsonEncode.
Implicit Types (s rest more : str) (c : char) (n d : N).

Lemma hex_digit_char d : d < 16 -> hex_digit (hex_char d) = Some d.
Proof.
  intros Hd.
  assert (d = 0 \/ d = 1 \/ d = 2 \/ d = 3 \/ d = 4 \/ d = 5 \/ d = 6 \/ d = 7
          \/ d = 8 \/ d = 9 \/ d = 10 \/ d = 11 \/ d = 12 \/ d = 13
          \/ d = 14 \/ d = 15) as H by lia.
  repeat (destruct H as [->|H]; [done|]). by subst.
Qed.

Lemma hex4_u_escape n :
  n < 65536 ->
  hex4 (hex_char (n / 4096)) (hex_char (n / 256 mod 16))
       (hex_char (n / 16 mod 16)) (hex_char (n mod 16)) = Some n.
Proof.
  intros Hn. unfold hex4.
  assert (n / 4096 < 16) by (apply N.Div0.div_lt_upper_bound; lia).
  rewrite !hex_digit_char by (done || by apply N.mod_lt). simpl. f_equal.
  assert (n / 16 / 16 = n / 256) as E1 by (by rewrite N.Div0.div_div).
  assert (n / 256 / 16 = n / 4096) as E2 by (by rewrite N.Div0.div_div).
  pose proof (N.div_mod n 16 ltac:(done)) as H1.
  pose proof (N.div_mod (n / 16) 16 ltac:(done)) as H2.
  pose proof (N.div_mod (n / 256) 16 ltac:(done)) as H3.
  rewrite E1 in H2. rewrite E2 in H3. lia.
Qed.
Lemma scanstring_u h1 h2 h3 h4 uni more :
  hex4 h1 h2 h3 h4 = Some uni -> is_high_surrogate uni = false ->
  scanstring (BACKSLASH :: ch "u" :: h1 :: h2 :: h3 :: h4 :: more)
  = push uni (scanstring more).
Proof.
  intros Hh Hs. cbn [scanstring].
  change (BACKSLASH =? QUOTE) with false.
  change (BACKSLASH =? BACKSLASH) with true.
  change (ch "u" =? ch "u") with true. cbv iota. rewrite Hh, Hs.
  by destruct more as [|? [|? [|? [|? [|? [|? ?]]]]]].
Qed.

Lemma scanstring_pair h1 h2 h3 h4 k1 k2 k3 k4 uni uni2 more :
  hex4 h1 h2 h3 h4 = Some uni -> is_high_surrogate uni = true ->
  hex4 k1 k2 k3 k4 = Some uni2 -> is_low_surrogate uni2 = true ->
  scanstring (BACKSLASH :: ch "u" :: h1 :: h2 :: h3 :: h4
                :: BACKSLASH :: ch "u" :: k1 :: k2 :: k3 :: k4 :: more)
  = push (join_surrogates uni uni2) (scanstring more).
Proof.
  intros Hh Hs Hk Hl. cbn [scanstring].
  change (BACKSLASH =? QUOTE) with false.
  change (BACKSLASH =? BACKSLASH) with true.
  change (ch "u" =? ch "u") with true. cbv iota.
  rewrite Hh, Hs. cbn [andb]. by rewrite Hk, Hl.
Qed.

Lemma land_shiftl_low (a b n : N) : b < 2 ^ n -> N.land (N.shiftl a n) b = 0.
Proof.
  intros Hb. apply N.bits_inj_0. intros m. rewrite N.land_spec.
  destruct (N.lt_ge_cases m n) as [Hm|Hm].
  - by rewrite N.shiftl_spec_low.
  - rewrite <- (N.mod_small b (2 ^ n)) by done.
    rewrite N.mod_pow2_bits_high by done. apply andb_false_r.
Qed.

Lemma lor_shiftl_low (a b n : N) :
  b < 2 ^ n -> N.lor (N.shiftl a n) b = a * 2 ^ n + b.
Proof.
  intros Hb. rewrite <- N.lxor_lor, <- N.add_nocarry_lxor
    by (by apply land_shiftl_low).
  by rewrite N.shiftl_mul_pow2.
Qed.

(** The two surrogates that stand for a code point from 65536 on, and the
    code point they are joined to. *)
Lemma surrogates_join c :
  0x10000 <= c < 0x110000 ->
  let n := c - 0x10000 in
  let hi := N.lor 0xd800 (N.land (N.shiftr n 10) 0x3ff) in
  let lo := N.lor 0xdc00 (N.land n 0x3ff) in
  hi < 65536 /\ lo < 65536 /\
  is_high_surrogate hi = true /\ is_low_surrogate lo = true /\
  join_surrogates hi lo = c.
Proof.
  intros Hc n hi lo.
  assert (n < 1024 * 1024) as Hn by (unfold n; lia).
  assert (N.land (N.shiftr n 10) 0x3ff = n / 1024) as E1.
  { change 0x3ff with (N.ones 10). rewrite N.land_ones, N.shiftr_div_pow2.
    change (2 ^ 10) with 1024. apply N.mod_small.
    apply N.Div0.div_lt_upper_bound. lia. }
  assert (N.land n 0x3ff = n mod 1024) as E2.
  { change 0x3ff with (N.ones 10). by rewrite N.land_ones. }
  assert (n / 1024 < 1024) as Hq by (apply N.Div0.div_lt_upper_bound; lia).
  assert (n mod 1024 < 1024) as Hr by (by apply N.mod_lt).
  assert (hi = 0xd800 + n / 1024) as Hhi.
  { unfold hi. rewrite E1. change 0xd800 with (N.shiftl 54 10).
    rewrite lor_shiftl_low by done. done. }
  assert (lo = 0xdc00 + n mod 1024) as Hlo.
  { unfold lo. rewrite E2. change 0xdc00 with (N.shiftl 55 10).
    rewrite lor_shiftl_low by done. done. }
  split_and!; try (rewrite ?Hhi, ?Hlo; lia).
  - unfold is_high_surrogate. rewrite Hhi.
    apply andb_true_intro. split; apply N.leb_le; lia.
  - unfold is_low_surrogate. rewrite Hlo.
    apply andb_true_intro. split; apply N.leb_le; lia.
  - unfold join_surrogates. rewrite Hhi, Hlo.
    replace (0xd800 + n / 1024 - 0xd800) with (n / 1024) by lia.
    replace (0xdc00 + n mod 1024 - 0xdc00) with (n mod 1024) by lia.
    rewrite lor_shiftl_low by done. change (2 ^ 10) with 1024.
    pose proof (N.div_mod n 1024 ltac:(done)). unfold n in *. lia.
Qed.

(** One escaped character is read back as the character. *)
Lemma scanstring_escape c more :
  scalar c = true ->
  scanstring (escape c ++ more) = push c (scanstring more).
Proof.
  intros Hc. unfold escape.
  repeat match goal with
    | |- context [if c =? ?k then _ else _] =>
        destruct (N.eqb_spec c k) as [->|?]; [done|]
    end.
  destruct ((32 <=? c) && (c <=? 126)) eqn:Hp.
  - apply andb_prop in Hp as [H1%N.leb_le H2%N.leb_le]. cbn [app scanstring].
    rewrite (proj2 (N.eqb_neq c QUOTE)), (proj2 (N.eqb_neq c BACKSLASH)) by done.
    by rewrite (proj2 (N.leb_gt c 0x1f)) by lia.
  - unfold scalar in Hc. destruct (N.ltb_spec c 0x10000) as [Hlt|Hge].
    + unfold u_escape. cbn [app]. apply scanstring_u.
      * by apply hex4_u_escape.
      * unfold is_high_surrogate.
        destruct (N.ltb_spec c 0xd800); [|destruct (N.leb_spec 0xe000 c)];
          try done.
        -- rewrite (proj2 (N.leb_gt 0xd800 c)) by done. done.
        -- rewrite (proj2 (N.leb_gt c 0xdbff)) by lia. apply andb_false_r.
    + assert (0x10000 <= c < 0x110000) as Hr.
      { split; [done|]. destruct (N.ltb_spec c 0xd800); [lia|].
        simpl in Hc. apply andb_prop in Hc as [_ ?%N.ltb_lt]. done. }
      destruct (surrogates_join c Hr) as (H1 & H2 & H3 & H4 & H5).
      unfold u_escape. cbn [app].
      rewrite (scanstring_pair _ _ _ _ _ _ _ _ _ _ _
                 (hex4_u_escape _ H1) H3 (hex4_u_escape _ H2) H4).
      by rewrite H5.
Qed.

Lemma scanstring_escaped s rest :
  text s -> scanstring (flat_map escape s ++ QUOTE :: rest) = Some (s, rest).
Proof.
  unfold text. induction s as [|c s IH]; [done|]. cbn [flat_map forallb].
  intros [Hc Hs]%andb_prop. rewrite <- app_assoc, scanstring_escape by done.
  by rewrite IH.
Qed.
End json_strings.

(** ** Integers through [json.dumps] and [json.loads] *)

Section json_numbers.
Import Json JsonEncode.
Implicit Types (s rest : str) (c : char) (n : Z).

Lemma to_uint_head p :
  exists c cs, uint_chars (Pos.to_uint p) = c :: cs /\ c <> 48.
Proof.
  pose proof (DecimalPos.Unsigned.to_of (Pos.to_uint p)) as H.
  rewrite DecimalPos.Unsigned.of_to in H. simpl in H.
  pose proof (DecimalPos.Unsigned.to_uint_nonzero p) as Hz.
  destruct (Pos.to_uint p) as [|u|u|u|u|u|u|u|u|u|u] eqn:E.
  - by destruct (DecimalPos.Unsigned.to_uint_nonnil p).
  - exfalso. rewrite DecimalFacts.unorm_D0 in H. unfold Decimal.unorm in H.
    destruct (Decimal.nzhead u) as [|u0|?|?|?|?|?|?|?|?|?] eqn:En; try done.
    by destruct (DecimalFacts.nzhead_nonzero u u0).
  - by exists 49, (uint_chars u).
  - by exists 50, (uint_chars u).
  - by exists 51, (uint_chars u).
  - by exists 52, (uint_chars u).
  - by exists 53, (uint_chars u).
  - by exists 54, (uint_chars u).
  - by exists 55, (uint_chars u).
  - by exists 56, (uint_chars u).
  - by exists 57, (uint_chars u).
Qed.

Lemma digits_end rest : ends_value rest = true -> digits rest = ([], rest).
Proof.
  destruct rest as [|c rest]; [done|]. simpl.
  intros [[->%N.eqb_eq| ->%N.eqb_eq]%orb_prop| ->%N.eqb_eq]%orb_prop; done.
Qed.

Lemma digits_uint d rest :
  ends_value rest = true -> digits (uint_chars d ++ rest) = (uint_chars d, rest).
Proof.
  intros Hr. induction d; simpl; rewrite ?IHd; try done.
  by apply digits_end.
Qed.

Lemma digits_value_uint d :
  digits_value (uint_chars d) = uint_val 0 d.
Proof.
  unfold digits_value. generalize 0%Z as acc.
  induction d; intros acc; simpl; [done|..]; by rewrite IHd.
Qed.
Lemma str_of_int_form n :
  exists d,
    uint_val 0 d = Z.abs n /\
    str_of_int n = (if (n <? 0)%Z then [MINUS] else []) ++ uint_chars d /\
    (d = Decimal.D0 Decimal.Nil \/
     exists c cs, uint_chars d = c :: cs /\ c <> 48).
Proof.
  destruct n as [|p|p].
  - exists (Decimal.D0 Decimal.Nil). split_and!; [done..|by left].
  - exists (Pos.to_uint p). pose proof (DecimalPos.Unsigned.to_uint_nonnil p).
    split_and!.
    + by rewrite uint_val_of_uint, DecimalPos.Unsigned.of_to.
    + unfold str_of_int. simpl. rewrite <- uint_chars_string.
      by destruct (Pos.to_uint p).
    + right. apply to_uint_head.
  - exists (Pos.to_uint p). pose proof (DecimalPos.Unsigned.to_uint_nonnil p).
    split_and!.
    + by rewrite uint_val_of_uint, DecimalPos.Unsigned.of_to.
    + unfold str_of_int. simpl. rewrite <- uint_chars_string.
      by destruct (Pos.to_uint p).
    + right. apply to_uint_head.
Qed.

Lemma match_number_uint (negative : bool) d rest :
  (d = Decimal.D0 Decimal.Nil \/
   exists c cs, uint_chars d = c :: cs /\ c <> 48) ->
  ends_value rest = true ->
  match_number ((if negative then [MINUS] else []) ++ uint_chars d ++ rest)
  = Some (PyInt (if negative then (- uint_val 0 d)%Z else uint_val 0 d), rest).
Proof.
  intros Hd Hr. pose proof (uint_chars_digits d) as Hds.
  pose proof (digits_uint d rest Hr) as Hdig.
  pose proof (digits_value_uint d) as Hval.
  assert (exists c cs, uint_chars d = c :: cs /\
            (c = 48 /\ cs = [] \/ c <> 48)) as (c & cs & E & Hc).
  { destruct Hd as [->|(c & cs & E & Hc)]; [by exists 48, []; auto|].
    exists c, cs. auto. }
  rewrite E in *. cbn [forallb] in Hds. apply andb_prop in Hds as [Hcd _].
  destruct (digit_plain c Hcd) as (_ & _ & _ & Hm & _).
  assert (is_digit c = true) as Hisd by exact Hcd.
  assert (rest = [] \/ exists x rest', rest = x :: rest' /\
            (x = 44 \/ x = 125 \/ x = 93)) as Hrest.
  { destruct rest as [|x rest']; [by left|right]. exists x, rest'.
    split; [done|]. simpl in Hr.
    apply orb_prop in Hr as [[?%N.eqb_eq|?%N.eqb_eq]%orb_prop|?%N.eqb_eq];
      auto. }
  assert ((if c =? ch "0" then ([c], cs ++ rest) else digits (c :: cs ++ rest))
          = (c :: cs, rest)) as Hint.
  { destruct Hc as [[-> ->]|Hc]; [done|].
    rewrite (proj2 (N.eqb_neq c (ch "0"))) by done. exact Hdig. }
  unfold match_number.
  destruct negative; cbn [app].
  - change (MINUS =? ch "-") with true. cbv iota. rewrite Hisd. cbn [negb].
    rewrite Hint.
    change (ch ".") with 46. change (ch "e") with 101. change (ch "E") with 69.
    destruct Hrest as [->|(x & [|y rest'] & -> & [->|[->| ->]])];
      cbn - [digits_value uint_val]; by rewrite <- Hval.
  - assert ((c =? ch "-") = false) as -> by exact Hm. cbv iota.
    rewrite Hisd. cbn [negb]. rewrite Hint.
    change (ch ".") with 46. change (ch "e") with 101. change (ch "E") with 69.
    destruct Hrest as [->|(x & [|y rest'] & -> & [->|[->| ->]])];
      cbn - [digits_value uint_val]; by rewrite <- Hval.
Qed.
Lemma scan_atom_digit c r :
  is_digit c = true -> scan_atom (c :: r) = match_number (c :: r).
Proof.
  intros [H1%N.leb_le H2%N.leb_le]%andb_prop. unfold ch in *. simpl in H1, H2.
  assert (c = 48 \/ c = 49 \/ c = 50 \/ c = 51 \/ c = 52 \/ c = 53
          \/ c = 54 \/ c = 55 \/ c = 56 \/ c = 57) as Hc by lia.
  destruct Hc as [->|[->|[->|[->|[->|[->|[->|[->|[->| ->]]]]]]]]]; reflexivity.
Qed.

Lemma scan_atom_minus c r :
  is_digit c = true ->
  scan_atom (MINUS :: c :: r) = match_number (MINUS :: c :: r).
Proof.
  intros [H1%N.leb_le H2%N.leb_le]%andb_prop. unfold ch in *. simpl in H1, H2.
  assert (c = 48 \/ c = 49 \/ c = 50 \/ c = 51 \/ c = 52 \/ c = 53
          \/ c = 54 \/ c = 55 \/ c = 56 \/ c = 57) as Hc by lia.
  destruct Hc as [->|[->|[->|[->|[->|[->|[->|[->|[->| ->]]]]]]]]]; reflexivity.
Qed.

(** An integer printed by [json.dumps] is read back by the scanner. *)
Lemma scan_once_int fuel n rest :
  ends_value rest = true ->
  scan_once (S fuel) (str_of_int n ++ rest) = Ok (PyInt n) rest.
Proof.
  intros Hr. destruct (str_of_int_form n) as (d & Hv & -> & Hd).
  pose proof (match_number_uint (n <? 0)%Z d rest Hd Hr) as Hm.
  assert (exists c cs, uint_chars d = c :: cs /\ is_digit c = true)
    as (c & cs & E & Hc).
  { pose proof (uint_chars_digits d) as Hds.
    destruct Hd as [->|(c & cs & E & _)]; [by exists 48, []|].
    exists c, cs. split; [done|]. rewrite E in Hds. simpl in Hds.
    by apply andb_prop in Hds as [? _]. }
  assert ((if (n <? 0)%Z then (- uint_val 0 d)%Z else uint_val 0 d) = n) as Hn.
  { rewrite Hv. destruct (Z.ltb_spec n 0); lia. }
  rewrite Hn in Hm. rewrite <- app_assoc. rewrite E in *.
  pose proof Hc as [H1%N.leb_le H2%N.leb_le]%andb_prop.
  unfold ch in H1, H2. simpl in H1, H2.
  destruct (n <? 0)%Z; cbn [app scan_once] in *.
  - change (MINUS =? ch "{") with false. change (MINUS =? ch "[") with false.
    cbv iota. by rewrite scan_atom_minus, Hm.
  - rewrite (proj2 (N.eqb_neq c (ch "{"))), (proj2 (N.eqb_neq c (ch "[")))
      by (unfold ch; simpl; lia).
    by rewrite scan_atom_digit, Hm.
Qed.

(** A string printed by [json.dumps] is read back by the scanner. *)
Lemma scan_once_str fuel s rest :
  text s ->
  scan_once (S fuel) (encode_basestring_ascii s ++ rest) = Ok (PyStr s) rest.
Proof.
  intros Hs. unfold encode_basestring_ascii.
  rewrite <- !app_assoc. cbn [app scan_once].
  change (QUOTE =? ch "{") with false. change (QUOTE =? ch "[") with false.
  cbv iota. unfold scan_atom. change (QUOTE =? QUOTE) with true. cbv iota.
  by rewrite scanstring_escaped.
Qed.
End json_numbers.

(** ** Records through [json.dumps] and [json.loads] *)

Section json_records.
Import Json JsonEncode.


Lemma dumps_record items :
  Forall (fun kv => str_or_int kv.2) items ->
  dumps (PyDict items)
  = Some (lit "{" ++ join (lit ", ") (item_text <$> items) ++ lit "}").
Proof.
  intros H. cbn [dumps].
  match goal with |- (?e items ≫= _) = _ =>
    assert (e items = Some (item_text <$> items)) as ->; [|done] end.
  induction H as [|[k v] items Hv _ IH]; [done|].
  rewrite fmap_cons. cbn [fst snd] in Hv. unfold item_text at 1. cbn [fst snd].
  destruct v; try done; cbn [dumps field_text]; cbn [mbind option_bind];
    by rewrite IH.
Qed.
Lemma skip_whitespace_head c s :
  is_whitespace c = false -> skip_whitespace (c :: s) = c :: s.
Proof. unfold skip_whitespace. simpl. by intros ->. Qed.

Lemma skip_whitespace_end rest :
  ends_value rest = true -> skip_whitespace rest = rest.
Proof.
  destruct rest as [|c rest]; [done|]. simpl. intros H.
  apply skip_whitespace_head.
  apply orb_prop in H as [[->%N.eqb_eq| ->%N.eqb_eq]%orb_prop| ->%N.eqb_eq];
    done.
Qed.

Lemma field_text_head v :
  field v ->
  exists c cs, field_text v = c :: cs /\ is_whitespace c = false.
Proof.
  destruct v as [| |n| |s| |]; try done; intros _; cbn [field_text].
  - destruct (str_of_int_form n) as (d & _ & -> & Hd).
    destruct (n <? 0)%Z; [by exists MINUS, (uint_chars d)|].
    pose proof (uint_chars_digits d) as Hds.
    assert (exists c cs, uint_chars d = c :: cs) as (c & cs & E).
    { destruct Hd as [->|(c & cs & E & _)]; [by exists 48, []|by exists c, cs]. }
    exists c, cs. split; [done|]. rewrite E in Hds. cbn [forallb] in Hds.
    apply andb_prop in Hds as [[H1%N.leb_le H2%N.leb_le]%andb_prop _].
    unfold ch in H1, H2. simpl in H1, H2. unfold is_whitespace, ch, TAB, LF, CR.
    simpl. repeat (rewrite (proj2 (N.eqb_neq c _)) by lia). done.
  - by exists QUOTE, (flat_map escape s ++ [QUOTE]).
Qed.

Lemma scan_once_field fuel v rest :
  field v -> ends_value rest = true ->
  scan_once (S fuel) (field_text v ++ rest) = Ok v rest.
Proof.
  destruct v; try done; intros Hv Hr; cbn [field_text].
  - by apply scan_once_int.
  - by apply scan_once_str.
Qed.

(** One turn of the loop over the members of an object. *)
Lemma object_items_step fuel acc k v tail :
  text k -> field v -> ends_value tail = true ->
  object_items (S (S fuel)) acc (item_text (k, v) ++ tail)
  = match tail with
    | [] => DecodeError
    | c :: s4 =>
        if c =? ch "}" then Ok (PyDict (dict_set k v acc)) s4
        else if c =? ch ","
             then object_items (S fuel) (dict_set k v acc) (skip_whitespace s4)
             else DecodeError
    end.
Proof.
  intros Hk Hv Ht. unfold item_text, encode_basestring_ascii. cbn [fst snd].
  rewrite <- !app_assoc. cbn [app object_items].
  change (QUOTE =? QUOTE) with true. cbn [negb].
  rewrite scanstring_escaped by done.
  change (lit ": ") with [ch ":"; ch " "]. cbn [app].
  rewrite skip_whitespace_head by done.
  change (ch ":" =? ch ":") with true. cbn [negb].
  destruct (field_text_head v Hv) as (c & cs & E & Hc).
  assert (skip_whitespace (ch " " :: field_text v ++ tail)
          = field_text v ++ tail) as ->.
  { rewrite E. cbn [app]. unfold skip_whitespace. cbn [lstrip_by].
    change (is_whitespace (ch " ")) with true. cbv iota.
    by apply skip_whitespace_head. }
  rewrite scan_once_field by done. by rewrite skip_whitespace_end.
Qed.

Lemma join_cons (sep t t' : str) ts :
  join sep (t :: t' :: ts) = t ++ sep ++ join sep (t' :: ts).
Proof. done. Qed.

Lemma object_items_record items : forall fuel acc rest,
  items <> [] ->
  Forall (fun kv => text kv.1 /\ field kv.2) items ->
  (length items < fuel)%nat ->
  object_items fuel acc
    (join (lit ", ") (item_text <$> items) ++ lit "}" ++ rest)
  = Ok (PyDict (foldl (fun acc kv => dict_set kv.1 kv.2 acc) acc items)) rest.
Proof.
  induction items as [|[k v] items IH]; [done|].
  intros fuel acc rest _ [[Hk Hv] Hitems]%Forall_cons Hfuel.
  cbn [fst snd length] in *.
  destruct fuel as [|[|fuel]]; [lia|lia|].
  destruct items as [|[k' v'] items].
  - cbn [fmap list_fmap join app foldl]. by rewrite object_items_step.
  - rewrite !fmap_cons, join_cons, <- !app_assoc.
    rewrite object_items_step by done.
    assert (forall r, lit ", " ++ r = ch "," :: ch " " :: r) as Hsep by done.
    rewrite Hsep at 1. clear Hsep.
    change (ch "," =? ch "}") with false. change (ch "," =? ch ",") with true.
    cbv iota.
    assert (forall r, skip_whitespace (ch " " :: item_text (k', v') ++ r)
                      = item_text (k', v') ++ r) as Hskip.
    { intros r. unfold skip_whitespace. cbn [lstrip_by].
      change (is_whitespace (ch " ")) with true. cbv iota.
      unfold item_text, encode_basestring_ascii. rewrite <- !app_assoc.
      cbn [app]. by apply skip_whitespace_head. }
    pose proof (IH (S fuel) (dict_set k v acc) rest) as IH'.
    rewrite fmap_cons in IH'.
    destruct items as [|kv items].
    + cbn [fmap list_fmap join] in *. rewrite Hskip.
      rewrite IH'; [done|done|done|]. cbn [length] in *. lia.
    + rewrite fmap_cons, join_cons, <- !app_assoc in *. rewrite Hskip.
      rewrite IH'; [done|done|done|]. cbn [length] in *. lia.
Qed.
Lemma dict_set_fresh k v acc :
  k ∉ acc.*1 -> dict_set k v acc = acc ++ [(k, v)].
Proof.
  induction acc as [|[k' w] acc IH]; [done|]. rewrite fmap_cons.
  cbn [fst dict_set]. intros [Hne Hk]%not_elem_of_cons.
  rewrite decide_False by done. by rewrite IH.
Qed.

Lemma foldl_dict_set items : forall acc,
  NoDup (acc.*1 ++ items.*1) ->
  foldl (fun acc kv => dict_set kv.1 kv.2 acc) acc items = acc ++ items.
Proof.
  induction items as [|[k v] items IH]; intros acc H.
  - by rewrite app_nil_r.
  - rewrite fmap_cons in H. cbn [fst snd foldl] in *.
    rewrite dict_set_fresh.
    + rewrite IH; [by rewrite <- app_assoc|].
      by rewrite fmap_app, <- app_assoc.
    + apply NoDup_app in H as (_ & H & _). intros Hk.
      apply (H k Hk). left.
Qed.

Lemma join_length sep (texts : list str) :
  Forall (fun t => t <> []) texts ->
  (length texts <= length (join sep texts))%nat.
Proof.
  induction 1 as [|t texts Ht _ IH]; [done|].
  destruct texts as [|t' texts].
  - destruct t; [done|]. cbn. lia.
  - rewrite join_cons, !length_app. destruct t; [done|].
    cbn [length] in *. unfold str, char in *. lia.
Qed.

(** The text of a flat record, and reading it back. *)
Lemma loads_record items :
  flat_record items ->
  loads (lit "{" ++ join (lit ", ") (item_text <$> items) ++ lit "}")
  = Some (PyDict items).
Proof.
  intros [Hnd Hitems]. destruct items as [|kv items]; [done|].
  assert (exists body, join (lit ", ") (item_text <$> kv :: items)
                       = QUOTE :: body) as [body Hbody].
  { rewrite fmap_cons. destruct items as [|kv' items].
    - by eexists.
    - rewrite fmap_cons, join_cons. by eexists. }
  pose proof (object_items_record (kv :: items)
                (2 * length (lit "{" ++ join (lit ", ")
                                (item_text <$> kv :: items) ++ lit "}"))
                [] []) as Hobj.
  rewrite foldl_dict_set, app_nil_r in Hobj by done.
  assert (Forall (fun t => t <> []) (item_text <$> kv :: items)) as Hne.
  { apply Forall_fmap, Forall_forall. by intros ? _. }
  pose proof (join_length (lit ", ") _ Hne) as Hlen.
  rewrite length_fmap in Hlen. cbn [length] in Hlen.
  specialize (Hobj ltac:(done) Hitems).
  rewrite !length_app in Hobj. cbn [lit length] in Hobj.
  specialize (Hobj ltac:(unfold str, char in *; lia)).
  clear Hlen Hne. rewrite <- !length_app in Hobj.
  unfold loads. change (lit "{") with [ch "{"] in *. cbn [app] in *.
  rewrite skip_whitespace_head by done. cbn [scan_once].
  change (ch "{" =? ch "{") with true. cbv iota.
  rewrite Hbody in Hobj |- *. cbn [app] in *.
  rewrite skip_whitespace_head by done.
  change (QUOTE =? ch "}") with false. change (ch "{") with 123 in *.
  cbv iota. by rewrite Hobj.
Qed.

End json_records.

(** ** The text of [json.dumps] is printable ASCII *)

Section json_ascii.
Import Json JsonEncode.

Lemma hex_char_printable d : d < 16 -> printable (hex_char d) = true.
Proof.
  intros Hd.
  assert (d = 0 \/ d = 1 \/ d = 2 \/ d = 3 \/ d = 4 \/ d = 5 \/ d = 6 \/ d = 7
          \/ d = 8 \/ d = 9 \/ d = 10 \/ d = 11 \/ d = 12 \/ d = 13
          \/ d = 14 \/ d = 15) as H by lia.
  repeat (destruct H as [->|H]; [done|]). by subst.
Qed.

Lemma u_escape_printable n :
  n < 65536 -> forallb printable (u_escape n) = true.
Proof.
  intros Hn. unfold u_escape. cbn [forallb].
  assert (n / 4096 < 16) by (apply N.Div0.div_lt_upper_bound; lia).
  rewrite !hex_char_printable by (done || by apply N.mod_lt).
  done.
Qed.

Lemma log2_lt_16 a : a < 2 ^ 16 -> N.log2 a < 16.
Proof.
  intros Ha. destruct a as [|p]; [done|]. by apply N.log2_lt_pow2.
Qed.

Lemma lor_surrogate_bound a x :
  a < 65536 -> N.lor a (N.land x 0x3ff) < 65536.
Proof.
  intros Ha. change 0x3ff with (N.ones 10). rewrite N.land_ones.
  assert (x mod 2 ^ 10 < 2 ^ 10) as Hb by (by apply N.mod_lt).
  set (b := x mod 2 ^ 10) in *.
  destruct (N.eq_dec (N.lor a b) 0) as [->|Hz]; [done|].
  change 65536 with (2 ^ 16) in *. apply N.log2_lt_pow2; [lia|].
  rewrite N.log2_lor. apply N.max_lub_lt; apply log2_lt_16; [done|].
  eapply N.lt_trans; [exact Hb|done].
Qed.

Lemma escape_printable c : forallb printable (escape c) = true.
Proof.
  unfold escape.
  repeat (match goal with |- context [if ?x =? ?y then _ else _] =>
            destruct (x =? y); [done|] end).
  destruct ((32 <=? c) && (c <=? 126)) eqn:E; [by cbn; rewrite andb_true_r|].
  destruct (N.ltb_spec c 0x10000).
  - by apply u_escape_printable.
  - rewrite forallb_app, !u_escape_printable; [done|by apply lor_surrogate_bound..].
Qed.

Lemma encode_printable s :
  forallb printable (encode_basestring_ascii s) = true.
Proof.
  unfold encode_basestring_ascii. cbn [app forallb].
  rewrite forallb_app. change (printable QUOTE) with true. cbn [andb forallb].
  rewrite andb_true_r. induction s as [|c s IH]; [done|].
  cbn [flat_map]. by rewrite forallb_app, escape_printable.
Qed.

Lemma uint_chars_printable d : forallb printable (uint_chars d) = true.
Proof. induction d; simpl; done. Qed.

Lemma str_of_int_printable n : forallb printable (str_of_int n) = true.
Proof.
  destruct (str_of_int_form n) as (d & _ & -> & _).
  rewrite forallb_app, uint_chars_printable. by destruct (n <? 0)%Z.
Qed.

Lemma item_text_printable kv :
  str_or_int kv.2 -> forallb printable (item_text kv) = true.
Proof.
  intros Hv. unfold item_text. rewrite !forallb_app, encode_printable.
  destruct (kv.2); try done; cbn [field_text].
  - by rewrite str_of_int_printable.
  - by rewrite encode_printable.
Qed.

Lemma join_printable texts :
  Forall (fun t => forallb printable t = true) texts ->
  forallb printable (join (lit ", ") texts) = true.
Proof.
  induction 1 as [|t texts Ht _ IH]; [done|].
  destruct texts as [|t' texts]; [done|].
  rewrite join_cons, !forallb_app, Ht.
  apply andb_true_intro; split; [done|]. apply andb_true_intro; split; [done|].
  exact IH.
Qed.

(** The text of a flat record is printable ASCII: it holds no tab and no
    line break. *)
Lemma record_printable items :
  Forall (fun kv => str_or_int kv.2) items ->
  forallb printable
    (lit "{" ++ join (lit ", ") (item_text <$> items) ++ lit "}") = true.
Proof.
  intros H. rewrite !forallb_app, join_printable; [done|].
  apply Forall_fmap. eapply Forall_impl; [exact H|].
  intros kv Hkv. by apply item_text_printable.
Qed.

Lemma printable_no_break t :
  forallb printable t = true -> (LF ∉ t) /\ (CR ∉ t) /\ (TAB ∉ t).
Proof.
  intros H. rewrite forallb_forall in H.
  split_and!; intros Hin%list_elem_of_In%H; done.
Qed.
End json_ascii.

(** ** log_generator.py *)

Section generator.
Import Json JsonEncode Generator.

Lemma choice_elem {A} (seq : list A) r :
  seq <> [] -> exists x, choice seq r = Some x /\ x ∈ seq.
Proof.
  intros H. unfold choice.
  destruct (lookup_lt_is_Some_2 seq (r mod length seq)) as [x Hx].
  { apply Nat.mod_upper_bound. by destruct seq. }
  exists x. split; [done|]. by eapply list_elem_of_lookup_2.
Qed.

Lemma randint_range a b r : (a <= b)%Z -> (a <= randint a b r <= b)%Z.
Proof.
  intros H. unfold randint.
  pose proof (Z.mod_pos_bound (Z.of_nat r) (b - a + 1)). lia.
Qed.

(** Every action has its templates; no action needs trimming. *)
Lemma templates_of action :
  action ∈ ACTIONS ->
  exists templates,
    getitem MESSAGE_TEMPLATES action = Some templates /\
    templates <> [] /\ Forall text templates /\
    text action /\ strip action = action /\ action <> [] /\ TAB ∉ action.
Proof.
  unfold ACTIONS. intros H.
  repeat (apply elem_of_cons in H as [->|H];
          [eexists; split; [reflexivity|]; split_and!;
           [done|by repeat constructor|done|by vm_compute|done|
            apply (bool_decide_unpack _); vm_compute; exact I]|]).
  by apply elem_of_nil in H.
Qed.

Lemma text_level level : level ∈ LEVELS -> text level.
Proof.
  unfold LEVELS. intros H.
  repeat (apply elem_of_cons in H as [->|H]; [done|]).
  by apply elem_of_nil in H.
Qed.

Lemma text_rstrip chars s : text s -> text (rstrip chars s).
Proof.
  unfold text, rstrip. intros H.
  destruct (rstrip_by_split (char_in chars) s) as (t & E & _).
  rewrite E, forallb_app in H. by apply andb_prop in H as [? _].
Qed.

(** What [generate_log_line] returns for a pool that is not empty. *)
Lemma generate_log_line_spec d user_pool :
  user_pool <> [] ->
  exists level action templates message response_time user_id,
    generate_log_line d user_pool
    = Some [(lit "timestamp", PyStr (timestamp d));
            (lit "level", PyStr level);
            (lit "user_id", PyStr user_id);
            (lit "action", PyStr action);
            (lit "message", PyStr message);
            (lit "response_time", PyInt response_time);
            (lit "ip", PyStr (ip d))] /\
    level ∈ LEVELS /\ action ∈ ACTIONS /\ user_id ∈ user_pool /\
    (level = lit "ERROR" -> below_06 d = true -> action = lit "ERROR") /\
    getitem MESSAGE_TEMPLATES action = Some templates /\
    (if below_04 d then message = rstrip (lit ".") (sentence d)
     else message ∈ templates) /\
    (level = lit "ERROR" -> 2000 <= response_time <= 30000)%Z /\
    (level = lit "WARNING" -> 500 <= response_time <= 5000)%Z /\
    (level = lit "INFO" -> 10 <= response_time <= 2000)%Z.
Proof.
  intros Hpool. unfold generate_log_line.
  destruct (choice_elem LEVELS (level_index d)) as (level & -> & Hl); [done|].
  destruct (choice_elem ACTIONS (action_index d)) as (action0 & -> & Ha);
    [done|].
  destruct (choice_elem user_pool (user_index d) Hpool) as (user_id & -> & Hu).
  cbn [mbind option_bind]. cbv zeta.
  set (action := if bool_decide (level = lit "ERROR") && below_06 d
                 then lit "ERROR" else action0).
  assert (action ∈ ACTIONS) as Hact.
  { subst action. destruct (_ && _); [|done].
    apply (bool_decide_unpack _). by vm_compute. }
  destruct (templates_of action Hact) as (templates & Et & Hne & _).
  rewrite Et. cbn [mbind option_bind].
  destruct (choice_elem templates (template_index d) Hne) as (m & -> & Hm).
  cbn [mbind option_bind].
  eexists level, action, templates, _, _, user_id.
  split; [reflexivity|]. split_and!; try done.
  - intros -> Hb. subst action. by rewrite Hb.
  - by destruct (below_04 d).
  - intros ->. rewrite bool_decide_eq_true_2 by done. by apply randint_range.
  - intros ->. rewrite bool_decide_eq_false_2 by done.
    rewrite bool_decide_eq_true_2 by done. by apply randint_range.
  - intros ->. rewrite !bool_decide_eq_false_2 by done.
    by apply randint_range.
Qed.
Lemma generate_log_line_nil d : generate_log_line d [] = None.
Proof.
  unfold generate_log_line.
  destruct (choice_elem LEVELS (level_index d)) as (level & -> & _); [done|].
  destruct (choice_elem ACTIONS (action_index d)) as (action0 & -> & Ha);
    [done|].
  cbn [mbind option_bind]. cbv zeta.
  set (action := if bool_decide (level = lit "ERROR") && below_06 d
                 then lit "ERROR" else action0).
  assert (action ∈ ACTIONS) as Hact.
  { subst action. destruct (_ && _); [|done].
    apply (bool_decide_unpack _). by vm_compute. }
  destruct (templates_of action Hact) as (templates & -> & Hne & _).
  cbn [mbind option_bind].
  destruct (choice_elem templates (template_index d) Hne) as (m & -> & _).
  done.
Qed.

(** The text of the line printed for the entry of a turn. *)
Lemma print_log_line_spec d user_pool :
  user_pool <> [] ->
  exists log_entry,
    generate_log_line d user_pool = Some log_entry /\
    Forall (fun kv => str_or_int kv.2) log_entry /\
    print_log_line d user_pool
    = Some ((lit "{" ++ join (lit ", ") (item_text <$> log_entry) ++ lit "}")
              ++ [LF]).
Proof.
  intros Hpool.
  destruct (generate_log_line_spec d user_pool Hpool)
    as (level & action & templates & message & rt & user_id & E & _).
  eexists. split; [exact E|].
  assert (Forall (fun kv : str * value => str_or_int kv.2)
            [(lit "timestamp", PyStr (timestamp d));
             (lit "level", PyStr level); (lit "user_id", PyStr user_id);
             (lit "action", PyStr action); (lit "message", PyStr message);
             (lit "response_time", PyInt rt); (lit "ip", PyStr (ip d))])
    as Hf by (by repeat constructor).
  split; [done|]. unfold print_log_line. rewrite E. cbn [mbind option_bind].
  by rewrite dumps_record.
Qed.

(** X15. [_make_user_pool] returns [size] entries, none when [size] is
    negative: first the user names, half of [size] rounded down, then the
    UUIDs. *)
Theorem make_user_pool_entries user_name uuid4 size :
  let pool := _make_user_pool user_name uuid4 size in
  length pool = Z.to_nat size /\
  (forall i, (i < Z.to_nat (size / 2))%nat -> pool !! i = Some (user_name i)) /\
  (forall i, (Z.to_nat (size / 2) <= i < Z.to_nat size)%nat ->
             pool !! i = Some (uuid4 (i - Z.to_nat (size / 2))%nat)).
Proof.
  cbv zeta. unfold _make_user_pool. rewrite length_fmap, length_seq.
  pose proof (Z.div_mod size 2 ltac:(done)) as Hdm.
  pose proof (Z.mod_pos_bound size 2 ltac:(done)) as Hm.
  set (q := (size / 2)%Z) in *.
  assert ((Z.to_nat q + Z.to_nat (size - Z.of_nat (Z.to_nat q)))%nat
          = Z.to_nat size) as Hlen by lia.
  split_and!.
  - by rewrite length_app, !length_fmap, !length_seq.
  - intros i Hi. rewrite lookup_app_l by (by rewrite length_fmap, length_seq).
    by rewrite list_lookup_fmap, lookup_seq_lt.
  - intros i Hi. rewrite lookup_app_r by (rewrite length_fmap, length_seq; lia).
    rewrite length_fmap, length_seq, list_lookup_fmap, lookup_seq_lt by lia.
    done.
Qed.

(** X16. For a pool that is not empty [generate_log_line] returns an entry
    with the seven fields in their order; the level, the action and the
    user are taken from [LEVELS], [ACTIONS] and the pool, and an [ERROR]
    level with a first draw below 0.6 forces the action [ERROR]. *)
Theorem generate_log_line_entry d user_pool :
  user_pool <> [] ->
  exists level user_id action message response_time,
    generate_log_line d user_pool
    = Some [(lit "timestamp", PyStr (timestamp d));
            (lit "level", PyStr level);
            (lit "user_id", PyStr user_id);
            (lit "action", PyStr action);
            (lit "message", PyStr message);
            (lit "response_time", PyInt response_time);
            (lit "ip", PyStr (ip d))] /\
    level ∈ LEVELS /\ user_id ∈ user_pool /\ action ∈ ACTIONS /\
    (level = lit "ERROR" -> below_06 d = true -> action = lit "ERROR").
Proof.
  intros Hpool.
  destruct (generate_log_line_spec d user_pool Hpool)
    as (level & action & templates & message & rt & user_id & E & Hl & Ha
        & Hu & Hb & _).
  by exists level, user_id, action, message, rt.
Qed.

Lemma generate_log_line_entry_witness :
  exists level user_id action message response_time,
    generate_log_line sample_draws [lit "alice"]
    = Some [(lit "timestamp", PyStr (timestamp sample_draws));
            (lit "level", PyStr level);
            (lit "user_id", PyStr user_id);
            (lit "action", PyStr action);
            (lit "message", PyStr message);
            (lit "response_time", PyInt response_time);
            (lit "ip", PyStr (ip sample_draws))] /\
    level ∈ LEVELS /\ user_id ∈ [lit "alice"] /\ action ∈ ACTIONS /\
    (level = lit "ERROR" -> below_06 sample_draws = true ->
     action = lit "ERROR").
Proof. apply (generate_log_line_entry sample_draws [lit "alice"]). done. Defined.

(** X17. [generate_log_line] raises, on [random.choice(user_pool)], exactly
    when the pool is empty. *)
Theorem generate_log_line_fails d user_pool :
  generate_log_line d user_pool = None <-> user_pool = [].
Proof.
  split.
  - intros E. destruct user_pool as [|u pool]; [done|].
    destruct (generate_log_line_spec d (u :: pool))
      as (? & ? & ? & ? & ? & ? & E' & _); [done|].
    by rewrite E in E'.
  - intros ->. apply generate_log_line_nil.
Qed.

(** X18. The response time of an entry lies in the range of its level:
    2000 to 30000 for [ERROR], 500 to 5000 for [WARNING], 10 to 2000 for
    [INFO]. *)
Theorem generate_log_line_response_time d user_pool log_entry :
  generate_log_line d user_pool = Some log_entry ->
  exists level response_time,
    dict_get (lit "level") log_entry = PyStr level /\
    dict_get (lit "response_time") log_entry = PyInt response_time /\
    (level = lit "ERROR" /\ 2000 <= response_time <= 30000 \/
     level = lit "WARNING" /\ 500 <= response_time <= 5000 \/
     level = lit "INFO" /\ 10 <= response_time <= 2000)%Z.
Proof.
  intros E. destruct user_pool as [|u pool].
  { by rewrite generate_log_line_nil in E. }
  destruct (generate_log_line_spec d (u :: pool))
    as (level & action & templates & message & rt & user_id & E' & Hl & _ & _
        & _ & _ & _ & He & Hw & Hi); [done|].
  rewrite E in E'. injection E' as ->. exists level, rt.
  split; [done|]. split; [done|]. unfold LEVELS in Hl.
  apply elem_of_cons in Hl as [->|Hl]; [auto|].
  apply elem_of_cons in Hl as [->|Hl]; [auto|].
  apply elem_of_cons in Hl as [->|Hl]; [auto|].
  by apply elem_of_nil in Hl.
Qed.

Lemma generate_log_line_response_time_witness :
  exists level response_time,
    dict_get (lit "level")
      (default [] (generate_log_line sample_draws [lit "alice"]))
    = PyStr level /\
    dict_get (lit "response_time")
      (default [] (generate_log_line sample_draws [lit "alice"]))
    = PyInt response_time /\
    (level = lit "ERROR" /\ 2000 <= response_time <= 30000 \/
     level = lit "WARNING" /\ 500 <= response_time <= 5000 \/
     level = lit "INFO" /\ 10 <= response_time <= 2000)%Z.
Proof.
  apply (generate_log_line_response_time sample_draws [lit "alice"]).
  reflexivity.
Defined.

(** X19. The message of an entry is one of the templates of the entry's
    action, which [MESSAGE_TEMPLATES] always holds, or, when the second
    draw is below 0.4, the sentence of Faker without its final dots. *)
Theorem generate_log_line_message d user_pool log_entry :
  generate_log_line d user_pool = Some log_entry ->
  exists action templates message,
    dict_get (lit "action") log_entry = PyStr action /\
    dict_get (lit "message") log_entry = PyStr message /\
    getitem MESSAGE_TEMPLATES action = Some templates /\
    if below_04 d then message = rstrip (lit ".") (sentence d)
    else message ∈ templates.
Proof.
  intros E. destruct user_pool as [|u pool].
  { by rewrite generate_log_line_nil in E. }
  destruct (generate_log_line_spec d (u :: pool))
    as (level & action & templates & message & rt & user_id & E' & _ & _ & _
        & _ & Ht & Hm & _); [done|].
  rewrite E in E'. injection E' as ->. by exists action, templates, message.
Qed.

Lemma generate_log_line_message_witness :
  exists action templates message,
    dict_get (lit "action")
      (default [] (generate_log_line sample_draws [lit "alice"]))
    = PyStr action /\
    dict_get (lit "message")
      (default [] (generate_log_line sample_draws [lit "alice"]))
    = PyStr message /\
    getitem MESSAGE_TEMPLATES action = Some templates /\
    if below_04 sample_draws
    then message = rstrip (lit ".") (sentence sample_draws)
    else message ∈ templates.
Proof.
  apply (generate_log_line_message sample_draws [lit "alice"]).
  reflexivity.
Defined.
Lemma user_pool_size user_name uuid4 :
  _make_user_pool user_name uuid4 USER_POOL_SIZE <> [].
Proof. intros H. apply (f_equal length) in H. by vm_compute in H. Qed.

Lemma loop_lines user_pool turns :
  user_pool <> [] ->
  exists lines,
    loop turns user_pool = Some lines /\
    length lines = length turns /\
    Forall (fun l => exists t, l = t ++ [LF] /\ forallb printable t = true)
           lines.
Proof.
  intros Hpool. induction turns as [|d turns (lines & E & Hlen & Hlines)].
  - by exists [].
  - destruct (print_log_line_spec d user_pool Hpool) as (entry & _ & Hf & Hp).
    eexists (_ :: lines). cbn [loop]. rewrite Hp, E. cbn [mbind option_bind].
    split; [reflexivity|]. split; [by rewrite !length_cons, Hlen|].
    constructor; [|done]. eexists. split; [reflexivity|].
    by apply record_printable.
Qed.

(** X20. [main] prints one line for each turn of its loop, whatever is
    drawn, and every line is printable ASCII up to its final line feed: it
    holds no tab and no other line break. *)
Theorem main_lines user_name uuid4 turns :
  exists lines,
    main user_name uuid4 turns = Some lines /\
    length lines = length turns /\
    Forall (fun l => exists t, l = t ++ [LF] /\ forallb printable t = true)
           lines.
Proof. apply loop_lines, user_pool_size. Qed.

(** The mapper on the line printed for a turn. *)
Lemma print_log_line_key d user_pool :
  user_pool <> [] -> Forall text user_pool -> text_draws d ->
  exists line action,
    print_log_line d user_pool = Some line /\
    entry_action d user_pool = Some action /\
    action ∈ ACTIONS /\
    Mapper.parse_line line = Mapper.Return (Some action).
Proof.
  intros Hpool Htext (Hts & Hsen & Hip).
  destruct (generate_log_line_spec d user_pool Hpool)
    as (level & action & templates & message & rt & user_id & E & Hl & Ha
        & Hu & _ & Ht & Hm & _).
  destruct (templates_of action Ha)
    as (templates' & Ht' & _ & Htt & Hta & Hstrip & Hne & _).
  rewrite Ht in Ht'. injection Ht' as <-.
  assert (text message) as Hmsg.
  { destruct (below_04 d); [subst; by apply text_rstrip|].
    rewrite Forall_forall in Htt. by apply Htt. }
  assert (text user_id) as Huser.
  { rewrite Forall_forall in Htext. by apply Htext. }
  pose proof (text_level level Hl) as Hlevel.
  set (entry := [(lit "timestamp", PyStr (timestamp d));
                 (lit "level", PyStr level); (lit "user_id", PyStr user_id);
                 (lit "action", PyStr action); (lit "message", PyStr message);
                 (lit "response_time", PyInt rt); (lit "ip", PyStr (ip d))])
    in *.
  assert (flat_record entry) as Hflat.
  { split.
    - apply (bool_decide_unpack _). by vm_compute.
    - by repeat constructor. }
  assert (Forall (fun kv : str * value => str_or_int kv.2) entry) as Hf
    by (by repeat constructor).
  exists ((lit "{" ++ join (lit ", ") (item_text <$> entry) ++ lit "}")
            ++ [LF]), action.
  split_and!.
  - unfold print_log_line. rewrite E. cbn [mbind option_bind].
    by rewrite dumps_record.
  - unfold entry_action. by rewrite E.
  - done.
  - replace (Some action) with (Some (strip action)) by (by rewrite Hstrip).
    apply (parse_line_action _ entry).
    + destruct (printable_no_break _ (record_printable entry Hf))
        as (HLF & HCR & _).
      rewrite (stream_line_rstrip _ _ HLF HCR) by (by right).
      by apply loads_record.
    + change (dict_get (lit "action") entry) with (PyStr action).
      by destruct action.
    + done.
Qed.
(** X21. The mapper finds in a line that the generator prints the action
    of the entry, one of [ACTIONS], when the strings that come from Faker
    and from the clock are text. *)
Theorem generated_line_parsed d user_pool :
  user_pool <> [] -> Forall text user_pool -> text_draws d ->
  exists line action,
    print_log_line d user_pool = Some line /\
    entry_action d user_pool = Some action /\
    action ∈ ACTIONS /\
    Mapper.parse_line line = Mapper.Return (Some action).
Proof. apply print_log_line_key. Qed.

Lemma generated_line_parsed_witness :
  exists line action,
    print_log_line sample_draws [lit "alice"] = Some line /\
    entry_action sample_draws [lit "alice"] = Some action /\
    action ∈ ACTIONS /\
    Mapper.parse_line line = Mapper.Return (Some action).
Proof.
  apply (generated_line_parsed sample_draws [lit "alice"]).
  - done.
  - by repeat constructor.
  - by repeat split.
Defined.

(** The mapper on the lines of a run of the loop. *)
Lemma loop_keys user_pool turns :
  user_pool <> [] -> Forall text user_pool -> Forall text_draws turns ->
  exists lines actions,
    loop turns user_pool = Some lines /\
    omap (fun d => entry_action d user_pool) turns = actions /\
    length actions = length turns /\
    Forall (.∈ ACTIONS) actions /\
    Mapper.main lines
    = Some {| Mapper.stdout := emitted <$> actions; Mapper.stderr := [] |}.
Proof.
  intros Hpool Htext. induction 1 as [|d turns Hd _ IH].
  - by exists [], [].
  - destruct IH as (lines & actions & E & Eact & Hlen & Hact & Hmain).
    destruct (print_log_line_key d user_pool Hpool Htext Hd)
      as (line & action & Ep & Ea & Ha & Hparse).
    exists (line :: lines), (action :: actions). split_and!.
    + cbn [loop]. by rewrite Ep, E.
    + cbn [omap list_omap]. by rewrite Ea, Eact.
    + by rewrite !length_cons, Hlen.
    + by constructor.
    + cbn [Mapper.main]. unfold Mapper.body. rewrite Hparse, Hmain. done.
Qed.

(** X22. The three programs in a row.  When the strings that come from
    Faker and from the clock are text, the mapper finds the action in
    every line that the generator prints and reports none, the reducer
    reports none either, and its result has an entry for exactly the
    actions of the entries made, each with the number of entries that have
    this action. *)
Theorem generator_pipeline user_name uuid4 turns :
  (forall i, text (user_name i)) -> (forall i, text (uuid4 i)) ->
  Forall text_draws turns ->
  let user_pool := _make_user_pool user_name uuid4 USER_POOL_SIZE in
  let actions := omap (fun d => entry_action d user_pool) turns in
  exists lines o,
    main user_name uuid4 turns = Some lines /\
    Mapper.main lines = Some o /\
    Mapper.stderr o = [] /\
    length actions = length turns /\
    Forall (.∈ ACTIONS) actions /\
    (Reducer.main (Mapper.stdout o)).2 = [] /\
    forall k n,
      (k, n) ∈ Reducer.result (Mapper.stdout o) <->
      k ∈ actions /\ n = occurrences k actions.
Proof.
  intros Hun Huu Hturns. cbv zeta.
  assert (Forall text (_make_user_pool user_name uuid4 USER_POOL_SIZE))
    as Htext.
  { unfold _make_user_pool. apply Forall_app.
    split; apply Forall_fmap, Forall_forall; intros i _; simpl; done. }
  destruct (loop_keys _ turns (user_pool_size user_name uuid4) Htext Hturns)
    as (lines & actions & E & <- & Hlen & Hact & Hmain).
  eexists lines, _. split; [exact E|]. split; [exact Hmain|].
  cbn [Mapper.stdout Mapper.stderr]. split_and!; [done..| |].
  - apply reduce_emitted. eapply Forall_impl; [exact Hact|].
    intros k Hk. by destruct (templates_of k Hk) as (? & _ & _ & _ & _ & ? & _ & ?).
  - intros k n. etrans.
    { apply reduce_emitted. eapply Forall_impl; [exact Hact|].
      intros k' Hk.
      by destruct (templates_of k' Hk) as (? & _ & _ & _ & _ & ? & _ & ?). }
    split; [by intros (_ & ? & ?)|]. intros [Hk ->]. split; [|done].
    rewrite Forall_forall in Hact.
    by destruct (templates_of k (Hact k Hk)) as (? & _ & _ & _ & _ & _ & ? & _).
Qed.

Lemma generator_pipeline_witness :
  exists lines o,
    main (fun _ => lit "alice") (fun _ => lit "0f8c") [sample_draws; sample_draws]
    = Some lines /\
    Mapper.main lines = Some o /\
    (lit "ERROR", 2%Z) ∈ Reducer.result (Mapper.stdout o).
Proof.
  destruct (generator_pipeline (fun _ => lit "alice") (fun _ => lit "0f8c")
              [sample_draws; sample_draws])
    as (lines & o & E & Hmain & _ & _ & _ & _ & Hres).
  - done.
  - done.
  - by repeat constructor.
  - exists lines, o. split; [exact E|]. split; [exact Hmain|].
    apply Hres. split.
    + vm_compute. left.
    + reflexivity.
Defined.
End generator.
